(** * copydoc: cleaning up Google Doc HTML

    A shallow embedding of [copydoc.py] (class [CopyDoc]) and the
    properties of its passes.  The parsed document is a tree of nodes that
    carry an identity, because the program keeps references to tags in
    lists ([findAll] results, [tags_blacklist]) while it edits the tree.

    The input of the model is the tree that [BeautifulSoup(html_string,
    'html.parser')] builds; parsing HTML, URLs and CSS is left to the
    libraries.  Exceptions are results, so that a method either returns
    the new state of the instance or raises.  Strings are sequences of
    ASCII characters. *)

From Stdlib Require Import String Ascii List Bool Arith Lia.
From stdpp Require Import base option list strings gmap.

Local Open Scope string_scope.
Local Open Scope list_scope.

(** ** Python values the program relies on *)

Module Py.

(** Exceptions that the modelled operations can raise. *)
Inductive exn := KeyError | ValueError | AttributeError | TypeError.

Inductive result (A : Type) :=
| Ok (a : A)
| Raise (e : exn).
Arguments Ok {A} a.
Arguments Raise {A} e.

Definition bind {A B} (m : result A) (k : A → result B) : result B :=
  match m with Ok a => k a | Raise e => Raise e end.

(** [for x in l: body], threading the state and stopping at the first
    exception. *)
Fixpoint for_each {S X} (body : X → S → result S) (l : list X) (s : S)
  : result S :=
  match l with
  | [] => Ok s
  | x :: l' => bind (body x s) (for_each body l')
  end.

(** [str.isspace] on the ASCII range (Python 3); it is also what [\s]
    matches in a [str] pattern of [re]. *)
Definition isspace (c : ascii) : bool :=
  let n := nat_of_ascii c in
  ((9 <=? n)%nat && (n <=? 13)%nat) || ((28 <=? n)%nat && (n <=? 32)%nat).

Fixpoint lstrip (s : string) : string :=
  match s with
  | String c s' => if isspace c then lstrip s' else s
  | EmptyString => EmptyString
  end.

Definition rstrip (s : string) : string := String.rev (lstrip (String.rev s)).

(** [s.strip()] *)
Definition strip (s : string) : string := rstrip (lstrip s).

(** [text.startswith(token)] *)
Definition startswith (text token : string) : bool := String.prefix token text.

(** The part of [s] after the first [sep], when [sep] occurs. *)
Fixpoint after_first (sep : ascii) (s : string) : option string :=
  match s with
  | EmptyString => None
  | String c s' => if Ascii.eqb c sep then Some s' else after_first sep s'
  end.

(** [s.split(sep, 1)[-1]]: the part after the first separator, or the
    whole string when there is none. *)
Definition split1_last (sep : ascii) (s : string) : string :=
  match after_first sep s with Some r => r | None => s end.

(** [re.sub('\s+', ' ', s)]; [in_run] tells that the preceding character
    belonged to the whitespace run being replaced. *)
Fixpoint sub_spaces (in_run : bool) (s : string) : string :=
  match s with
  | EmptyString => EmptyString
  | String c s' =>
      if isspace c
      then (if in_run then sub_spaces true s'
            else String " " (sub_spaces true s'))
      else String c (sub_spaces false s')
  end.

(** [re.sub(c, '', s)] for a one-character pattern. *)
Fixpoint sub_char (c : ascii) (s : string) : string :=
  match s with
  | EmptyString => EmptyString
  | String d s' => if Ascii.eqb d c then sub_char c s' else String d (sub_char c s')
  end.

(** [''.join(l)] *)
Definition join (l : list string) : string := String.concat "" l.

(** A [dict] with string keys, in insertion order. *)
Abbreviation dict V := (list (string * V)).

Section Dict.
Context {V : Type}.

Fixpoint dict_get (k : string) (d : dict V) : option V :=
  match d with
  | [] => None
  | (k', v) :: d' => if String.eqb k k' then Some v else dict_get k d'
  end.

(** [d[k] = v] *)
Fixpoint dict_set (k : string) (v : V) (d : dict V) : dict V :=
  match d with
  | [] => [(k, v)]
  | (k', v') :: d' =>
      if String.eqb k k' then (k', v) :: d' else (k', v') :: dict_set k v d'
  end.

(** [del d[k]] *)
Fixpoint dict_del (k : string) (d : dict V) : dict V :=
  match d with
  | [] => []
  | (k', v') :: d' =>
      if String.eqb k k' then d' else (k', v') :: dict_del k d'
  end.

Definition keys (d : dict V) : list string := map fst d.
End Dict.

(** [x in l] for a list of strings. *)
Definition str_in (x : string) (l : list string) : bool :=
  existsb (String.eqb x) l.

End Py.

Import Py.

Notation "x <- m ;; k" := (Py.bind m (fun x => k))
  (at level 100, m at next level, right associativity).

(** ** External collaborators

    [copydoc.py] delegates URL and CSS parsing to libraries, and the set of
    void elements belongs to the tree builder.  The development is
    parametric in them; the library functions are taken to return (an
    exception raised inside a library is outside the model). *)

(** A rule of a parsed style sheet: a style rule with its selector text and
    its declarations in order, or a rule of another type. *)
Inductive css_rule :=
| StyleRule (selectorText : string) (style : list (string * string))
| OtherRule.

Class Collaborators := {
  (** the builder's [empty_element_tags] *)
  empty_element_tags : list string;
  (** [urlsplit(href).query] *)
  urlsplit_query : string → string;
  (** [parse_qs(query)] *)
  parse_qs : string → dict (list string);
  (** [cssutils.parseString(css)], as the list of its rules *)
  parseString : string → list css_rule
}.

(** ** The document tree (BeautifulSoup with the html.parser builder)

    Only what [copydoc.py] calls is modelled.  A node keeps the identity of
    the Python object it stands for; the tree stores the children in order.
    Besides the document itself the soup remembers the subtrees that were
    extracted but are still referenced by the program.  A node is a tag or
    a string; comments, CDATA sections and declarations are left out. *)

Module Bs4.

Definition node_id := nat.

(** An attribute value: a string, a list (the parser splits [class] into
    a list; [parse_attrs] stores the list returned by [parse_qs]) or
    [None]. *)
Inductive attr_value :=
| AStr (s : string)
| AList (l : list string)
| ANone.

#[local] Unset Elimination Schemes.
Inductive node :=
| NavigableString (id : node_id) (value : string)
| Tag (id : node_id) (name : string) (attrs : dict attr_value)
      (contents : list node).
#[local] Set Elimination Schemes.

Definition ident (n : node) : node_id :=
  match n with NavigableString i _ => i | Tag i _ _ _ => i end.

Definition is_tag (n : node) : bool :=
  match n with Tag _ _ _ _ => true | NavigableString _ _ => false end.

Definition node_name (n : node) : option string :=
  match n with Tag _ nm _ _ => Some nm | NavigableString _ _ => None end.

Definition node_attrs (n : node) : dict attr_value :=
  match n with Tag _ _ a _ => a | NavigableString _ _ => [] end.

Definition node_contents (n : node) : list node :=
  match n with Tag _ _ _ cs => cs | NavigableString _ _ => [] end.

Definition has_id (i : node_id) (n : node) : bool := Nat.eqb (ident n) i.

Section Combinators.
Context {A B : Type} (f : A → option B).
(** The first result that [f] gives along a list. *)
Fixpoint first_some (l : list A) : option B :=
  match l with
  | [] => None
  | x :: l' => match f x with Some r => Some r | None => first_some l' end
  end.
End Combinators.

(** The node and everything below it, in document order. *)
Fixpoint self_and_descendants (n : node) : list node :=
  n :: match n with
       | NavigableString _ _ => []
       | Tag _ _ _ cs => flat_map self_and_descendants cs
       end.

(** [tag.descendants] *)
Definition descendants (n : node) : list node :=
  flat_map self_and_descendants (node_contents n).

(** The first node (document order) with the given identity. *)
Fixpoint find_node (i : node_id) (n : node) : option node :=
  if has_id i n then Some n
  else match n with
       | NavigableString _ _ => None
       | Tag _ _ _ cs => first_some (find_node i) cs
       end.

(** The tag that has the node [i] among its children. *)
Fixpoint parent_in (i : node_id) (n : node) : option node :=
  match n with
  | NavigableString _ _ => None
  | Tag _ _ _ cs =>
      if existsb (has_id i) cs then Some n else first_some (parent_in i) cs
  end.

(** Replace, everywhere below [n], each child with identity [i] by the
    nodes [f child]. *)
Fixpoint replace_child (i : node_id) (f : node → list node) (n : node) : node :=
  match n with
  | NavigableString _ _ => n
  | Tag j nm a cs =>
      Tag j nm a
        (flat_map (fun c => if has_id i c then f c else [replace_child i f c]) cs)
  end.

(** Update the node with identity [i] in place, wherever it is. *)
Definition update_node (i : node_id) (g : node → node) (n : node) : node :=
  if has_id i n then g n else replace_child i (fun c => [g c]) n.

Record BeautifulSoup := {
  root : node;              (* the BeautifulSoup object *)
  detached : list node;     (* extracted subtrees, each without a parent *)
  next_id : node_id         (* identity of the next object created *)
}.

Definition forest (bs : BeautifulSoup) : list node := root bs :: detached bs.

Definition lookup (bs : BeautifulSoup) (i : node_id) : option node :=
  first_some (find_node i) (forest bs).

(** [tag.parent] *)
Definition parent (bs : BeautifulSoup) (i : node_id) : option node :=
  first_some (parent_in i) (forest bs).

Definition map_forest (h : node → node) (bs : BeautifulSoup) : BeautifulSoup :=
  {| root := h (root bs); detached := map h (detached bs);
     next_id := next_id bs |}.

(** [tag.name]; a decomposed tag has lost it. *)
Definition name (bs : BeautifulSoup) (i : node_id) : option string :=
  n ← lookup bs i; node_name n.

(** [tag.attrs] *)
Definition attrs (bs : BeautifulSoup) (i : node_id) : dict attr_value :=
  from_option node_attrs [] (lookup bs i).

(** [tag.contents] *)
Definition contents (bs : BeautifulSoup) (i : node_id) : list node :=
  from_option node_contents [] (lookup bs i).

(** [tag.get(key)] *)
Definition get (bs : BeautifulSoup) (i : node_id) (key : string) : option attr_value :=
  dict_get key (attrs bs i).

(** The element that follows [i] in a list of siblings. *)
Fixpoint following (i : node_id) (l : list node) : option node :=
  match l with
  | [] => None
  | c :: l' => if has_id i c then head l' else following i l'
  end.

(** [tag.next_sibling] *)
Definition next_sibling (bs : BeautifulSoup) (i : node_id) : option node :=
  p ← parent bs i; following i (node_contents p).

(** The strings below a node, in document order. *)
Definition strings_of (n : node) : list string :=
  flat_map (fun d => match d with NavigableString _ s => [s] | Tag _ _ _ _ => [] end)
           (self_and_descendants n).

(** [node.get_text()], which is also [node.text]. *)
Definition node_text (n : node) : string := join (strings_of n).

Definition get_text (bs : BeautifulSoup) (i : node_id) : string :=
  from_option node_text "" (lookup bs i).

(** [tag.stripped_strings]: the strings stripped, the empty ones left out. *)
Definition stripped_strings (bs : BeautifulSoup) (i : node_id) : list string :=
  List.filter (fun s => negb (String.eqb s ""))
    (map strip (from_option strings_of [] (lookup bs i))).

Definition named (nm : string) (n : node) : bool :=
  match n with Tag _ nm' _ _ => String.eqb nm nm' | NavigableString _ _ => false end.

(** [tag.findAll(name)]: the tags of that name below [n], document order. *)
Definition find_all (nm : string) (n : node) : list node_id :=
  map ident (List.filter (named nm) (descendants n)).

(** [tag.findAll()]: every tag below [n]. *)
Definition find_all_tags (n : node) : list node_id :=
  map ident (List.filter is_tag (descendants n)).

(** [soup.body], that is [soup.find('body')]. *)
Definition body (bs : BeautifulSoup) : option node :=
  head (List.filter (named "body") (descendants (root bs))).

Definition with_contents (cs : list node) (n : node) : node :=
  match n with
  | Tag j nm a _ => Tag j nm a cs
  | NavigableString _ _ => n
  end.

(** The node is part of the document (it is below the root). *)
Definition in_document (bs : BeautifulSoup) (i : node_id) : bool :=
  existsb (has_id i) (descendants (root bs)).

(** [tag.extract()]: take the node out of its parent; a node without a
    parent stays as it is. *)
Definition extract (i : node_id) (bs : BeautifulSoup) : BeautifulSoup :=
  match parent bs i with
  | Some _ =>
      {| root := replace_child i (fun _ => []) (root bs);
         detached := map (replace_child i (fun _ => [])) (detached bs)
                     ++ option_list (lookup bs i);
         next_id := next_id bs |}
  | None => bs
  end.

(** [tag.decompose()]: extract the node and destroy it with all that is
    below it; the destroyed objects are no longer part of the soup. *)
Definition decompose (i : node_id) (bs : BeautifulSoup) : BeautifulSoup :=
  let bs' := extract i bs in
  {| root := root bs';
     detached := List.filter (fun n => negb (has_id i n)) (detached bs');
     next_id := next_id bs' |}.

(** [tag.unwrap()]: replace the tag by its children.  [ValueError] when
    the tag is not part of a tree. *)
Definition unwrap (i : node_id) (bs : BeautifulSoup) : result BeautifulSoup :=
  match parent bs i with
  | Some _ =>
      Ok {| root := replace_child i node_contents (root bs);
            detached := map (replace_child i node_contents) (detached bs)
                        ++ option_list (with_contents [] <$> lookup bs i);
            next_id := next_id bs |}
  | None => Raise ValueError
  end.

(** [tag.wrap(soup.new_tag(nm))]: a new, attribute-less tag takes the
    place of [i] and receives [i] as its only child.  [ValueError] when
    the tag is not part of a tree. *)
Definition wrap (i : node_id) (nm : string) (bs : BeautifulSoup) : result BeautifulSoup :=
  match parent bs i with
  | Some _ =>
      let k := next_id bs in
      Ok {| root := replace_child i (fun c => [Tag k nm [] [c]]) (root bs);
            detached := map (replace_child i (fun c => [Tag k nm [] [c]])) (detached bs);
            next_id := S k |}
  | None => Raise ValueError
  end.

Definition append_child (c : node) (n : node) : node :=
  match n with
  | Tag j nm a cs => Tag j nm a (cs ++ [c])
  | NavigableString _ _ => n
  end.

(** [tag.append(text)] with a Python string: a new [NavigableString]
    becomes the last child. *)
Definition append (i : node_id) (text : string) (bs : BeautifulSoup) : BeautifulSoup :=
  let k := next_id bs in
  {| root := update_node i (append_child (NavigableString k text)) (root bs);
     detached := map (update_node i (append_child (NavigableString k text))) (detached bs);
     next_id := S k |}.

Definition with_attrs (a : dict attr_value) (n : node) : node :=
  match n with
  | Tag j nm _ cs => Tag j nm a cs
  | NavigableString _ _ => n
  end.

(** [tag.attrs = a] *)
Definition set_attrs (i : node_id) (a : dict attr_value) (bs : BeautifulSoup) : BeautifulSoup :=
  map_forest (update_node i (with_attrs a)) bs.

(** *** Rendering: [tag.decode(formatter=None)] *)

Definition dquote : ascii := "034"%char.

Definition contains (c : ascii) (s : string) : bool :=
  existsb (Ascii.eqb c) (list_ascii_of_string s).

Fixpoint replace_dquote (s : string) : string :=
  match s with
  | EmptyString => EmptyString
  | String c s' =>
      if Ascii.eqb c dquote then "&quot;" +:+ replace_dquote s'
      else String c (replace_dquote s')
  end.

(** [EntitySubstitution.quoted_attribute_value] *)
Definition quoted_attribute_value (v : string) : string :=
  if contains dquote v then
    if contains "'" v
    then String dquote (replace_dquote v +:+ String dquote "")
    else "'" +:+ v +:+ "'"
  else String dquote (v +:+ String dquote "").

(** One attribute of a start tag: a bare key for [None], the items of a
    list joined with spaces. *)
Definition decode_attr (kv : string * attr_value) : string :=
  match kv with
  | (key, ANone) => key
  | (key, AList l) => key +:+ "=" +:+ quoted_attribute_value (String.concat " " l)
  | (key, AStr v) => key +:+ "=" +:+ quoted_attribute_value v
  end.

(** [sorted(self.attrs.items())]: the attributes in the order of their
    keys. *)
Fixpoint insert_sorted (kv : string * attr_value) (l : dict attr_value)
  : dict attr_value :=
  match l with
  | [] => [kv]
  | kv' :: l' =>
      if String.leb (fst kv) (fst kv') then kv :: l else kv' :: insert_sorted kv l'
  end.

Definition sorted_items (a : dict attr_value) : dict attr_value :=
  fold_right insert_sorted [] a.

Section Rendering.
Context `{Collaborators}.

Definition can_be_empty_element (nm : string) : bool :=
  str_in nm empty_element_tags.

(** [tag.is_empty_element] *)
Definition is_empty_element (n : node) : bool :=
  match n with
  | Tag _ nm _ cs => (length cs =? 0)%nat && can_be_empty_element nm
  | NavigableString _ _ => false
  end.

(** The markup of a node inside a tree: strings as they are (no
    formatter), tags with their sorted attributes, a void element
    without children as [<br/>]. *)
Fixpoint markup (n : node) : string :=
  match n with
  | NavigableString _ s => s
  | Tag _ nm a cs =>
      "<" +:+ nm
      +:+ String.concat "" (map (fun kv => " " +:+ decode_attr kv) (sorted_items a))
      +:+ (if is_empty_element n then "/>"
           else ">" +:+ String.concat "" (map markup cs) +:+ "</" +:+ nm +:+ ">")
  end.

(** [node.decode(formatter=None)].  [decode] is a method of [Tag];
    a [NavigableString] is a [str] without it, and the attribute
    lookup ends in [NavigableString.__getattr__], which raises
    [AttributeError]. *)
Definition decode (n : node) : result string :=
  match n with
  | Tag _ _ _ _ => Ok (markup n)
  | NavigableString _ _ => Raise AttributeError
  end.

(** [tag.encode_contents()] of a [style] element: its strings as they
    are. *)
Definition encode_contents (n : node) : string :=
  String.concat "" (map markup (node_contents n)).
End Rendering.

End Bs4.

Import Bs4.

(** ** The class [CopyDoc] *)

Definition ATTR_WHITELIST : dict (list string) :=
  [("a", ["href"]); ("img", ["src"; "alt"])].

(** The module also defines [STYLE_WHITELIST]; no method reads it, the
    checks below spell the properties and values out. *)
Definition STYLE_WHITELIST : dict (list string) :=
  [("font-weight", ["700"; "bold"]); ("font-style", ["italic"]);
   ("text-decoration", ["underline"])].

(** The instance: its document, the style sheet built from it, the
    anchors marked for removal, the token rules, and the attributes that
    [find_token] sets with [setattr] (kept apart from the other four;
    token rules are taken not to name those). *)
Record CopyDoc := {
  soup : BeautifulSoup;
  stylesheet : gmap string (dict string);
  tags_blacklist : list node_id;
  tokens : list (string * string);
  fields : gmap string string
}.

Definition with_soup (bs : BeautifulSoup) (self : CopyDoc) : CopyDoc :=
  {| soup := bs; stylesheet := stylesheet self;
     tags_blacklist := tags_blacklist self; tokens := tokens self;
     fields := fields self |}.

Definition blacklist (i : node_id) (self : CopyDoc) : CopyDoc :=
  {| soup := soup self; stylesheet := stylesheet self;
     tags_blacklist := tags_blacklist self ++ [i]; tokens := tokens self;
     fields := fields self |}.

Definition set_field (attr value : string) (self : CopyDoc) : CopyDoc :=
  {| soup := soup self; stylesheet := stylesheet self;
     tags_blacklist := tags_blacklist self; tokens := tokens self;
     fields := <[attr := value]> (fields self) |}.

(** Truth value of an attribute value ([None] when the key is missing). *)
Definition truthy (v : option attr_value) : bool :=
  match v with
  | Some (AStr s) => negb (String.eqb s "")
  | Some (AList l) => negb (length l =? 0)%nat
  | Some ANone | None => false
  end.

(** [==] on the results of [_parse_href]. *)
Definition href_eqb (x y : option (list string)) : bool :=
  bool_decide (x = y).

(** [==] on attribute values and on [attrs] dictionaries (the order of the
    keys does not count). *)
Definition attr_value_eqb (x y : attr_value) : bool :=
  match x, y with
  | AStr s, AStr t => String.eqb s t
  | AList l, AList m => bool_decide (l = m)
  | ANone, ANone => true
  | _, _ => false
  end.

Definition attrs_eqb (a b : dict attr_value) : bool :=
  (length a =? length b)%nat
  && forallb (fun kv => match dict_get (fst kv) b with
                        | Some v => attr_value_eqb (snd kv) v
                        | None => false
                        end) a.

Section Forall2b.
Context {A : Type} (eqb : A → A → bool).
Fixpoint forall2b (l m : list A) : bool :=
  match l, m with
  | [], [] => true
  | x :: l', y :: m' => eqb x y && forall2b l' m'
  | _, _ => false
  end.
End Forall2b.

(** [==] on nodes: strings by value; tags by name, attributes and
    contents, whatever their identity ([Tag.__eq__]). *)
Fixpoint node_eqb (x y : node) : bool :=
  match x, y with
  | NavigableString _ s, NavigableString _ t => String.eqb s t
  | Tag _ n a cs, Tag _ m b ds =>
      String.eqb n m && attrs_eqb a b && forall2b node_eqb cs ds
  | _, _ => false
  end.

Section Methods.
Context `{Collaborators}.

(** [build_stylesheet]: every style rule of every [style] element
    (re)starts the entry of its selector and fills it declaration by
    declaration. *)
Definition add_rule (selectors : gmap string (dict string)) (rule : css_rule)
  : gmap string (dict string) :=
  match rule with
  | StyleRule style items =>
      <[style := fold_left (fun d item => dict_set (fst item) (snd item) d) items []]>
        selectors
  | OtherRule => selectors
  end.

Definition build_stylesheet (bs : BeautifulSoup) : gmap string (dict string) :=
  fold_left
    (fun selectors style =>
       fold_left add_rule (parseString (encode_contents style)) selectors)
    (List.filter (named "style") (descendants (root bs)))
    ∅.

(** [tag.get('class', [])] as the list the [for] loop runs over: the
    parser stores a list; a string would be iterated by character and
    [None] cannot be iterated. *)
Definition classes_of (v : option attr_value) : result (list string) :=
  match v with
  | None => Ok []
  | Some (AList l) => Ok l
  | Some (AStr s) => Ok (map (fun c => String c "") (list_ascii_of_string s))
  | Some ANone => Raise TypeError
  end.

(** The body shared by [create_italic], [create_strong] and
    [create_underline]: for each class of the tag, look its selector up
    in the style sheet with [self.stylesheet[...]] and wrap the tag once
    for each declaration [key: value] with the given key and one of the
    given values. *)
Definition wrap_if_styled (key : string) (values : list string) (new_tag : string)
    (tag : node_id) (self : CopyDoc) : result CopyDoc :=
  classes <- classes_of (get (soup self) tag "class") ;;
  for_each
    (fun class_name self =>
       match stylesheet self !! ("." +:+ class_name) with
       | None => Raise KeyError
       | Some styles =>
           for_each
             (fun item self =>
                if String.eqb (fst item) key && str_in (snd item) values
                then bs <- wrap tag new_tag (soup self) ;; Ok (with_soup bs self)
                else Ok self)
             styles self
       end)
    classes self.

Definition create_italic := wrap_if_styled "font-style" ["italic"] "em".
Definition create_strong := wrap_if_styled "font-weight" ["bold"; "700"] "strong".
Definition create_underline := wrap_if_styled "text-decoration" ["underline"] "u".

Definition unwrap_span (tag : node_id) (self : CopyDoc) : result CopyDoc :=
  bs <- unwrap tag (soup self) ;; Ok (with_soup bs self).

(** [remove_comments]: [tag.get('id', '').startswith('cmnt')], then
    [tag.parent.extract()]. *)
Definition remove_comments (tag : node_id) (self : CopyDoc) : result CopyDoc :=
  match get (soup self) tag "id" with
  | None => Ok self
  | Some (AStr s) =>
      if startswith s "cmnt" then
        match parent (soup self) tag with
        | Some p => Ok (with_soup (extract (ident p) (soup self)) self)
        | None => Raise AttributeError
        end
      else Ok self
  | Some _ => Raise AttributeError
  end.

(** [_parse_href]: the values of the [q] parameter of the query, or
    [None].  The parser gives [href] as a string; [urlsplit] is not
    followed on other values. *)
Definition _parse_href (href : attr_value) : result (option (list string)) :=
  match href with
  | AStr s => Ok (dict_get "q" (parse_qs (urlsplit_query s)))
  | _ => Raise AttributeError
  end.

Definition stored (r : option (list string)) : attr_value :=
  match r with Some l => AList l | None => ANone end.

Definition _parse_attr (tagname attr : string) (value : attr_value)
  : result attr_value :=
  if String.eqb tagname "a" && String.eqb attr "href"
  then r <- _parse_href value ;; Ok (stored r)
  else Ok value.

(** [check_next] *)
Definition check_next (tag : node_id) (self : CopyDoc) : result CopyDoc :=
  match next_sibling (soup self) tag with
  | Some (Tag next_tag nm next_attrs next_contents as next_node) =>
      if String.eqb nm "a" then
        let h := get (soup self) tag "href" in
        let nh := dict_get "href" next_attrs in
        if truthy h && truthy nh then
          href <- _parse_href (default ANone h) ;;
          next_href <- _parse_href (default ANone nh) ;;
          if href_eqb href next_href then
            let next_text := node_text next_node in
            Ok (blacklist next_tag (with_soup (append tag next_text (soup self)) self))
          else Ok self
        else Ok self
      else Ok self
  | _ => Ok self
  end.

(** [tag in self.tags_blacklist]: some element of the list is the tag
    itself or equal to it.  A destroyed tag has no name, attributes or
    contents left and equals no tag of the soup. *)
Definition in_blacklist (tag : node_id) (self : CopyDoc) : bool :=
  existsb
    (fun b => (b =? tag)%nat
              || match lookup (soup self) tag, lookup (soup self) b with
                 | Some x, Some y => node_eqb x y
                 | _, _ => false
                 end)
    (tags_blacklist self).

Definition remove_blacklisted_tags (tag : node_id) (self : CopyDoc) : CopyDoc :=
  if in_blacklist tag self then with_soup (decompose tag (soup self)) self
  else self.

(** [parse_attrs]: the loop runs over a copy of the attributes and
    edits [tag.attrs]. *)
Definition parse_attrs (tag : node_id) (self : CopyDoc) : result CopyDoc :=
  match name (soup self) tag with
  | Some nm =>
      match dict_get nm ATTR_WHITELIST with
      | Some allowed =>
          let attrs0 := attrs (soup self) tag in
          attrs1 <- for_each
                      (fun item cur =>
                         if str_in (fst item) allowed
                         then v <- _parse_attr nm (fst item) (snd item) ;;
                              Ok (dict_set (fst item) v cur)
                         else Ok (dict_del (fst item) cur))
                      attrs0 attrs0 ;;
          Ok (with_soup (set_attrs tag attrs1 (soup self)) self)
      | None => Ok (with_soup (set_attrs tag [] (soup self)) self)
      end
  | None => Ok (with_soup (set_attrs tag [] (soup self)) self)
  end.

(** [remove_empty] *)
Definition remove_empty (tag : node_id) (self : CopyDoc) : CopyDoc :=
  let has_children := length (contents (soup self) tag) in
  let has_text := length (stripped_strings (soup self) tag) in
  if (has_children =? 0)%nat && (has_text =? 0)%nat
     && negb (from_option is_empty_element false (lookup (soup self) tag))
  then with_soup (extract tag (soup self)) self
  else self.

(** [hasattr(self, attr) and getattr(self, attr)], read on the token
    fields: a rule is taken not to use the name of an attribute or method
    that the instance has anyway. *)
Definition field_filled (attr : string) (self : CopyDoc) : bool :=
  match fields self !! attr with
  | Some v => negb (String.eqb v "")
  | None => false
  end.

(** [find_token]; with string rules nothing in it raises [TypeError]. *)
Definition find_token (tag : node_id) (token attr : string) (self : CopyDoc)
  : CopyDoc :=
  if negb (field_filled attr self) then
    let text := get_text (soup self) tag in
    if startswith text token then
      with_soup (extract tag (soup self))
                (set_field attr (strip (split1_last ":" text)) self)
    else self
  else self.

(** [remove_inline_comment] *)
Definition remove_inline_comment (tag : node_id) (self : CopyDoc) : CopyDoc :=
  let text := get_text (soup self) tag in
  if startswith text "##" then with_soup (extract tag (soup self)) self
  else self.

(** What [parse] does with one tag of the body. *)
Definition parse_body_tag (tag : node_id) (self : CopyDoc) : result CopyDoc :=
  let self := remove_empty tag self in
  let self := remove_inline_comment tag self in
  self <- parse_attrs tag self ;;
  let self := fold_left (fun self rule => find_token tag (fst rule) (snd rule) self)
                        (tokens self) self in
  Ok (remove_blacklisted_tags tag self).

Definition parse_span (tag : node_id) (self : CopyDoc) : result CopyDoc :=
  self <- create_italic tag self ;;
  self <- create_strong tag self ;;
  self <- create_underline tag self ;;
  unwrap_span tag self.

Definition parse_anchor (tag : node_id) (self : CopyDoc) : result CopyDoc :=
  self <- remove_comments tag self ;;
  check_next tag self.

(** The part of [parse] under [if self.soup.body:]. *)
Definition parse_body (self : CopyDoc) : result CopyDoc :=
  match body (soup self) with
  | Some b => for_each parse_body_tag (find_all_tags b) self
  | None => Ok self
  end.

(** [parse]: each [findAll] list is built before its loop starts. *)
Definition parse (self : CopyDoc) : result CopyDoc :=
  self <- for_each parse_span (find_all "span" (root (soup self))) self ;;
  self <- for_each parse_anchor (find_all "a" (root (soup self))) self ;;
  parse_body self.

(** [__init__], from the parsed document. *)
Definition init (bs : BeautifulSoup) (tokens : list (string * string))
  : result CopyDoc :=
  parse {| soup := bs; stylesheet := build_stylesheet bs;
           tags_blacklist := []; tokens := tokens; fields := ∅ |}.

Definition newline : ascii := "010"%char.

(** [clean_linebreaks] *)
Definition clean_linebreaks (tag : node) : result string :=
  stripped <- decode tag ;;
  let stripped := sub_spaces false stripped in
  let stripped := sub_char newline stripped in
  Ok stripped.

Fixpoint map_result {A B} (f : A → result B) (l : list A) : result (list B) :=
  match l with
  | [] => Ok []
  | x :: l' => y <- f x ;; ys <- map_result f l' ;; Ok (y :: ys)
  end.

(** [__str__] *)
Definition __str__ (self : CopyDoc) : result string :=
  match body (soup self) with
  | None => Ok ""
  | Some b =>
      pieces <- map_result clean_linebreaks (node_contents b) ;;
      Ok (join pieces)
  end.

End Methods.

(** ** A concrete choice of the collaborators

    It serves the examples.  URLs are split as [urlsplit] and [parse_qs]
    split plain ones: the query is what follows the first [?] of the part
    before the first [#]; its fields are separated by [&]; a field is
    [name=value]; fields without [=] or with an empty value are left out.
    Percent-escapes and [+] are not decoded, and the examples have none.
    The style sheet parser knows the one style block of the examples. *)

Module Reference.

Fixpoint before_first (sep : ascii) (s : string) : string :=
  match s with
  | EmptyString => EmptyString
  | String c s' =>
      if Ascii.eqb c sep then EmptyString else String c (before_first sep s')
  end.

(** [s.split(sep)] *)
Fixpoint split (sep : ascii) (s : string) : list string :=
  match s with
  | EmptyString => [EmptyString]
  | String c s' =>
      if Ascii.eqb c sep then EmptyString :: split sep s'
      else match split sep s' with
           | w :: ws => String c w :: ws
           | [] => [String c EmptyString]
           end
  end.

Definition query (url : string) : string :=
  default "" (after_first "?" (before_first "#" url)).

Definition add_field (d : dict (list string)) (field : string)
  : dict (list string) :=
  match after_first "=" field with
  | Some value =>
      if String.eqb value "" then d
      else let nm := before_first "=" field in
           dict_set nm (default [] (dict_get nm d) ++ [value]) d
  | None => d
  end.

Definition query_fields (qs : string) : dict (list string) :=
  fold_left add_field (split "&" qs) [].

Definition style_rules (css : string) : list css_rule :=
  if String.eqb css ".c1{font-weight:700}"
  then [StyleRule ".c1" [("font-weight", "700")]]
  else [].

#[export] Instance collaborators : Collaborators := {
  empty_element_tags :=
    ["area"; "base"; "br"; "col"; "embed"; "hr"; "img"; "input"; "keygen";
     "link"; "menuitem"; "meta"; "param"; "source"; "track"; "wbr";
     "basefont"; "bgsound"; "command"; "frame"; "image"; "isindex";
     "nextid"; "spacer"];
  urlsplit_query := query;
  parse_qs := query_fields;
  parseString := style_rules
}.

(** The soup of a freshly parsed document: nothing detached, and new
    objects get identities above those of the document. *)
Definition new_soup (doc : node) : BeautifulSoup :=
  {| root := doc; detached := [];
     next_id := S (list_max (map ident (self_and_descendants doc))) |}.

End Reference.


(** ** Documents used in the examples

    Each is the tree that the parser builds for the markup shown. *)

Module Examples.
Import Reference.

Definition html_body (children : list node) : node :=
  Tag 0 "[document]" [] [Tag 1 "html" [] [Tag 2 "body" [] children]].

(** [<span class="c9">x</span>] in a body, no [style] element. *)
Definition unknown_class : node :=
  html_body [Tag 3 "span" [("class", AList ["c9"])] [NavigableString 4 "x"]].

Definition redirect (dest : string) : attr_value :=
  AStr ("https://www.google.com/url?q=" +:+ dest +:+ "&sa=D").

(** Three adjacent links to the same destination. *)
Definition three_links : node :=
  html_body
    [Tag 3 "a" [("href", redirect "https://example.com")] [NavigableString 4 "foo"];
     Tag 5 "a" [("href", redirect "https://example.com")] [NavigableString 6 "bar"];
     Tag 7 "a" [("href", redirect "https://example.com")] [NavigableString 8 "baz"]].

(** Two adjacent links to the same destination. *)
Definition two_links : node :=
  html_body
    [Tag 3 "a" [("href", redirect "https://example.com")] [NavigableString 4 "foo"];
     Tag 5 "a" [("href", redirect "https://example.com")] [NavigableString 6 "bar"]].

(** Two adjacent links without a [q] parameter, to different pages. *)
Definition plain_links : node :=
  html_body
    [Tag 3 "a" [("href", AStr "https://one.example/")] [NavigableString 4 "one"];
     Tag 5 "a" [("href", AStr "https://two.example/")] [NavigableString 6 "two"]].

(** [<img src="x.png" alt="pic" onclick="e()"><div id="d" class="k">t</div>] *)
Definition img_and_div : node :=
  html_body
    [Tag 3 "img" [("src", AStr "x.png"); ("alt", AStr "pic"); ("onclick", AStr "e()")] [];
     Tag 4 "div" [("id", AStr "d"); ("class", AList ["k"])] [NavigableString 5 "t"]].

(** [<p>intro</p><p>Title: Hello World</p><p>Title: Second</p>] *)
Definition titled : node :=
  html_body
    [Tag 3 "p" [] [NavigableString 4 "intro"];
     Tag 5 "p" [] [NavigableString 6 "Title: Hello World"];
     Tag 7 "p" [] [NavigableString 8 "Title: Second"]].


(** [<p></p><br>] *)
Definition empty_p_and_br : node :=
  html_body [Tag 3 "p" [] []; Tag 4 "br" [] []].


Definition a_nl_nl_b : string :=
  String "a" (String newline (String newline "  b")).

(** The text ["a\n\n  b"] directly in the body. *)
Definition text_in_body : node := html_body [NavigableString 3 a_nl_nl_b].

(** The same text in a paragraph. *)
Definition text_in_p : node := html_body [Tag 3 "p" [] [NavigableString 4 a_nl_nl_b]].

(** [<style>.c1{font-weight:700}</style>] in the head and
    [<p><span class="c1">bold</span> text</p>] in the body. *)
Definition styled_span : node :=
  Tag 0 "[document]" []
    [Tag 1 "html" []
       [Tag 2 "head" [] [Tag 3 "style" [] [NavigableString 4 ".c1{font-weight:700}"]];
        Tag 5 "body" []
          [Tag 6 "p" []
             [Tag 7 "span" [("class", AList ["c1"])] [NavigableString 8 "bold"];
              NavigableString 9 " text"]]]].

(** [<p>keep</p><div><a id="cmnt1" href="#cmnt_ref1">[a]</a>note</div>] *)
Definition commented : node :=
  html_body
    [Tag 3 "p" [] [NavigableString 4 "keep"];
     Tag 5 "div" []
       [Tag 6 "a" [("id", AStr "cmnt1"); ("href", AStr "#cmnt_ref1")]
          [NavigableString 7 "[a]"];
        NavigableString 8 "note"]].

(** The instance as [__init__] sets it up, before [parse] runs. *)
Definition unparsed (doc : node) (tokens : list (string * string)) : CopyDoc :=
  {| soup := new_soup doc; stylesheet := build_stylesheet (new_soup doc);
     tags_blacklist := []; tokens := tokens; fields := ∅ |}.

(** An instance on a parsed document with the given style sheet, token
    rules left out, before [parse] runs. *)
Definition styled (doc : node) (sheet : gmap string (dict string)) : CopyDoc :=
  {| soup := new_soup doc; stylesheet := sheet;
     tags_blacklist := []; tokens := []; fields := ∅ |}.

(** The instance [CopyDoc(html, tokens)] for a parsed document. *)
Definition copydoc (doc : node) (tokens : list (string * string)) : result CopyDoc :=
  init (new_soup doc) tokens.

(** [str(CopyDoc(html, tokens))] *)
Definition rendered (doc : node) (tokens : list (string * string)) : result string :=
  self <- copydoc doc tokens ;; __str__ self.

(** [getattr(CopyDoc(html, tokens), attr, None)] for a token field. *)
Definition field (doc : node) (tokens : list (string * string)) (attr : string)
  : option string :=
  match copydoc doc tokens with
  | Ok self => fields self !! attr
  | Raise _ => None
  end.

(** Whether the node is still in the document of [CopyDoc(html, tokens)]. *)
Definition survives (doc : node) (tokens : list (string * string)) (i : node_id)
  : option bool :=
  match copydoc doc tokens with
  | Ok self => Some (in_document (soup self) i)
  | Raise _ => None
  end.

(** A string between double quotes. *)
Definition quoted (s : string) : string :=
  String dquote (s +:+ String dquote EmptyString).

End Examples.

(** * Properties *)

(** ** Induction on nodes *)

Section NodeInduction.
Variable P : node → Prop.
Hypothesis Hstring : ∀ i s, P (NavigableString i s).
Hypothesis Htag : ∀ i nm a cs, Forall P cs → P (Tag i nm a cs).

Fixpoint node_ind (n : node) : P n :=
  match n with
  | NavigableString i s => Hstring i s
  | Tag i nm a cs =>
      Htag i nm a cs
        ((fix all (l : list node) : Forall P l :=
            match l with
            | [] => @List.Forall_nil _ P
            | c :: l' => @List.Forall_cons _ P c l' (node_ind c) (all l')
            end) cs)
  end.
End NodeInduction.

(** ** Facts about the tree operations *)

Section TreeFacts.

Lemma has_id_true i n : has_id i n = true ↔ ident n = i.
Proof. unfold has_id. apply Nat.eqb_eq. Qed.

Lemma has_id_false i n : has_id i n = false ↔ ident n ≠ i.
Proof. unfold has_id. apply Nat.eqb_neq. Qed.

Lemma find_node_eq i n :
  find_node i n =
  if has_id i n then Some n else first_some (find_node i) (node_contents n).
Proof. destruct n; reflexivity. Qed.

Lemma ident_replace_child i f n : ident (replace_child i f n) = ident n.
Proof. destruct n; reflexivity. Qed.

Lemma has_id_replace_child i j f n :
  has_id j (replace_child i f n) = has_id j n.
Proof. unfold has_id. by rewrite ident_replace_child. Qed.

(** The node found under an identity carries it. *)
Lemma find_node_ident i n m : find_node i n = Some m → ident m = i.
Proof.
  revert m. induction n as [j s | j nm a cs IH] using node_ind; intros m.
  - rewrite find_node_eq. destruct (has_id i _) eqn:E; [|discriminate].
    intros [= <-]. by apply has_id_true.
  - rewrite find_node_eq. destruct (has_id i _) eqn:E.
    + intros [= <-]. by apply has_id_true.
    + simpl. clear E.
      induction IH as [|c cs' Hc _ IHcs]; simpl; [discriminate|].
      destruct (find_node i c) eqn:Ec; [intros [= <-]; by apply Hc | exact IHcs].
Qed.




Lemma ident_with_attrs a n : ident (with_attrs a n) = ident n.
Proof. by destruct n. Qed.




End TreeFacts.

(** ** Removal from the document *)

Section Removal.

Lemma self_and_descendants_eq n :
  self_and_descendants n = n :: descendants n.
Proof. by destruct n. Qed.

Lemma first_some_None {A B} (f : A → option B) l :
  first_some f l = None → ∀ x, In x l → f x = None.
Proof.
  induction l as [|y l IH]; simpl; [tauto|].
  destruct (f y) eqn:E; [discriminate|].
  intros Hl x [<-|Hx]; [done | by apply IH].
Qed.

(** A node without a parent in [n] is not below [n]. *)
Lemma parent_in_None i n :
  parent_in i n = None → ∀ d, In d (descendants n) → ident d ≠ i.
Proof.
  induction n as [j s | j nm a cs IH] using node_ind; [intros _ d []|].
  simpl parent_in. destruct (existsb (has_id i) cs) eqn:E; [discriminate|].
  intros Hp d Hd. unfold descendants in Hd. simpl in Hd.
  apply in_flat_map in Hd as (c & Hc & Hd).
  rewrite self_and_descendants_eq in Hd. destruct Hd as [<-|Hd].
  - apply has_id_false. apply not_true_is_false. intros Ht.
    assert (existsb (has_id i) cs = true) by (apply existsb_exists; eauto).
    congruence.
  - rewrite List.Forall_forall in IH.
    apply (IH c Hc); [|done]. by apply (first_some_None _ _ Hp).
Qed.

(** After the children with identity [i] are dropped, none is left. *)
Lemma replace_child_drops i n :
  ∀ d, In d (descendants (replace_child i (fun _ => []) n)) → ident d ≠ i.
Proof.
  induction n as [j s | j nm a cs IH] using node_ind; [intros d []|].
  intros d Hd. unfold descendants in Hd. simpl in Hd.
  rewrite List.Forall_forall in IH.
  apply in_flat_map in Hd as (c' & Hc' & Hd).
  apply in_flat_map in Hc' as (c & Hc & Hc').
  destruct (has_id i c) eqn:E; [destruct Hc'|].
  destruct Hc' as [<-|[]].
  rewrite self_and_descendants_eq in Hd. destruct Hd as [<-|Hd].
  - rewrite ident_replace_child. by apply has_id_false.
  - by apply (IH c Hc).
Qed.

Lemma in_document_false bs i :
  in_document bs i = false ↔ ∀ d, In d (descendants (root bs)) → ident d ≠ i.
Proof.
  unfold in_document. split.
  - intros E d Hd. apply has_id_false. apply not_true_is_false. intros Ht.
    assert (existsb (has_id i) (descendants (root bs)) = true)
      by (apply existsb_exists; eauto).
    congruence.
  - intros Hall. apply not_true_is_false. intros Ht.
    apply existsb_exists in Ht as (d & Hd & Ht).
    apply has_id_true in Ht. by apply (Hall d Hd).
Qed.

(** An extracted node is no longer part of the document. *)
Lemma extract_not_in_document bs i : in_document (extract i bs) i = false.
Proof.
  apply in_document_false. unfold extract.
  destruct (parent bs i) eqn:E; simpl.
  - apply replace_child_drops.
  - apply parent_in_None. unfold parent, forest in E. simpl in E.
    by destruct (parent_in i (root bs)).
Qed.

(** Nor is a decomposed one. *)
Lemma decompose_not_in_document bs i : in_document (decompose i bs) i = false.
Proof. apply (extract_not_in_document bs i). Qed.

End Removal.

(** ** The passes over the body *)

Section BodyPasses.
Context `{Collaborators}.

(** C7.  [remove_empty] detaches an element that has no child node, no
    non-blank string and a tag type that is not void: afterwards it is no
    longer part of the document.  A void element (one whose name the
    builder lists in [empty_element_tags], such as [br]) is left where it
    is, also when it has no children and no text. *)
Theorem remove_empty_prunes_non_void
    (self : CopyDoc) (tag : node_id) (n : node) (nm : string) :
  lookup (soup self) tag = Some n →
  node_name n = Some nm →
  (node_contents n = [] →
   stripped_strings (soup self) tag = [] →
   can_be_empty_element nm = false →
   remove_empty tag self = with_soup (extract tag (soup self)) self
   ∧ in_document (soup (remove_empty tag self)) tag = false)
  ∧ (can_be_empty_element nm = true → remove_empty tag self = self).
Proof.
  intros Hl Hn. destruct n as [j s | j nm' a cs]; [discriminate|].
  injection Hn as ->. split.
  - simpl. intros -> Hs Hv.
    assert (remove_empty tag self = with_soup (extract tag (soup self)) self) as E.
    { unfold remove_empty, contents. rewrite Hl, Hs. simpl. by rewrite Hv. }
    split; [exact E|]. rewrite E. apply extract_not_in_document.
  - intros Hv. unfold remove_empty, contents. rewrite Hl. simpl. rewrite Hv.
    destruct (length cs =? 0)%nat; simpl; [|reflexivity].
    by rewrite andb_false_r.
Qed.





End BodyPasses.

(** ** The attribute filter *)

Section AttributeFilter.
Context `{Collaborators}.









End AttributeFilter.

(** ** Merging adjacent links *)

Section LinkMerge.
Context `{Collaborators}.

Lemma append_nil_r s : s +:+ EmptyString = s.
Proof.
  induction s as [|c s IH]; [reflexivity|].
  change (String c (s +:+ EmptyString) = String c s). by rewrite IH.
Qed.


Lemma join_cons s l : join (s :: l) = s +:+ join l.
Proof.
  unfold join. destruct l as [|t l]; simpl; [by rewrite append_nil_r | reflexivity].
Qed.




Lemma in_blacklist_member tag self :
  In tag (tags_blacklist self) → in_blacklist tag self = true.
Proof.
  intros Hin. unfold in_blacklist. apply existsb_exists.
  exists tag. split; [exact Hin|]. by rewrite Nat.eqb_refl.
Qed.

(** [check_next] merges whenever both [href]s are non-empty and resolve to
    equal results, whatever the common result is. *)
Lemma check_next_merges_equal
    (self : CopyDoc) (tag next_tag : node_id) (url next_url : string)
    (next_attrs : dict attr_value) (next_contents : list node)
    (resolved : option (list string)) :
  next_sibling (soup self) tag = Some (Tag next_tag "a" next_attrs next_contents) →
  get (soup self) tag "href" = Some (AStr url) →
  dict_get "href" next_attrs = Some (AStr next_url) →
  url ≠ "" →
  next_url ≠ "" →
  _parse_href (AStr url) = Ok resolved →
  _parse_href (AStr next_url) = Ok resolved →
  check_next tag self
  = Ok (blacklist next_tag
          (with_soup
             (append tag (node_text (Tag next_tag "a" next_attrs next_contents))
                     (soup self)) self)).
Proof.
  intros Hnext Hh Hnh Hu Hnu Hq Hnq.
  unfold check_next. rewrite Hnext, Hh, Hnh. simpl default.
  assert (truthy (Some (AStr url)) && truthy (Some (AStr next_url)) = true) as ->.
  { simpl. apply andb_true_iff. split; apply negb_true_iff; by apply String.eqb_neq. }
  simpl String.eqb. cbv iota. rewrite Hq, Hnq. simpl.
  unfold href_eqb. by rewrite bool_decide_eq_true_2.
Qed.

(** In particular two links that both lack [q] are merged. *)
Lemma check_next_merges_unresolved
    (self : CopyDoc) (tag next_tag : node_id) (url next_url : string)
    (next_attrs : dict attr_value) (next_contents : list node) :
  next_sibling (soup self) tag = Some (Tag next_tag "a" next_attrs next_contents) →
  get (soup self) tag "href" = Some (AStr url) →
  dict_get "href" next_attrs = Some (AStr next_url) →
  url ≠ "" →
  next_url ≠ "" →
  dict_get "q" (parse_qs (urlsplit_query url)) = None →
  dict_get "q" (parse_qs (urlsplit_query next_url)) = None →
  ∃ self',
    check_next tag self = Ok self'
    ∧ In next_tag (tags_blacklist self').
Proof.
  intros Hnext Hh Hnh Hu Hnu Hq Hnq. eexists. split.
  - apply (check_next_merges_equal self tag next_tag url next_url
             next_attrs next_contents None);
      try done; unfold _parse_href; by rewrite ?Hq, ?Hnq.
  - simpl. apply in_or_app. right. by left.
Qed.


End LinkMerge.

(** ** Documents without a body *)

Section NoBody.
Context `{Collaborators}.

Local Abbreviation not_body := (fun d : node => named "body" d = false).


Lemma for_each_preserves {S X} (I : S → Prop) (step : X → S → result S) l :
  (∀ x s s', I s → step x s = Ok s' → I s') →
  ∀ s s', I s → for_each step l s = Ok s' → I s'.
Proof.
  intros Hstep. induction l as [|x l IH]; simpl; intros s s' Hs.
  - by intros [= <-].
  - destruct (step x s) as [s1|e] eqn:E; simpl; [|discriminate].
    apply IH. by apply (Hstep x s).
Qed.









(** What the two loops before the body pass keep: no body, no field. *)
Local Abbreviation bodiless := (fun self : CopyDoc => body (soup self) = None ∧ fields self = ∅).





End NoBody.

(** ** Redirect resolution and serialization *)

Section Strings.
Context `{Collaborators}.

(** An [href] whose query has no [q]: the resolution returns [None] and
    raises nothing. *)
Lemma _parse_href_without_q url :
  dict_get "q" (parse_qs (urlsplit_query url)) = None →
  _parse_href (AStr url) = Ok None.
Proof. unfold _parse_href. by intros ->. Qed.

(** After [re.sub('\s+', ' ', s)] the only whitespace left is the space. *)
Lemma sub_spaces_only_spaces in_run s c :
  In c (list_ascii_of_string (sub_spaces in_run s)) → isspace c = true → c = " "%char.
Proof.
  revert in_run. induction s as [|d s IH]; intros in_run; simpl; [tauto|].
  destruct (isspace d) eqn:E.
  - destruct in_run; simpl; [apply IH|]. intros [<-|Hin]; [done | by apply (IH true)].
  - simpl. intros [<-|Hin]; [congruence | by apply (IH false)].
Qed.

(** Hence no newline survives, and the second substitution of
    [clean_linebreaks] finds nothing to remove. *)
Lemma sub_char_newline_sub_spaces in_run s :
  sub_char newline (sub_spaces in_run s) = sub_spaces in_run s.
Proof.
  revert in_run. induction s as [|d s IH]; intros in_run; simpl; [reflexivity|].
  destruct (isspace d) eqn:E.
  - destruct in_run; simpl; by rewrite IH.
  - simpl. destruct (Ascii.eqb_spec d newline) as [->|_]; [discriminate E|].
    by rewrite IH.
Qed.

(** A whitespace run leaves one space: nothing is left to collapse. *)
Lemma sub_spaces_idempotent in_run s :
  sub_spaces in_run (sub_spaces in_run s) = sub_spaces in_run s.
Proof.
  revert in_run.
  induction s as [|d s IH]; intros in_run; simpl; [reflexivity|].
  destruct (isspace d) eqn:E.
  - destruct in_run; simpl; [apply IH|]. by rewrite IH.
  - simpl. rewrite E. by rewrite IH.
Qed.

Lemma clean_linebreaks_tag j nm a cs :
  clean_linebreaks (Tag j nm a cs) = Ok (sub_spaces false (markup (Tag j nm a cs))).
Proof.
  unfold clean_linebreaks, decode. cbn [Py.bind].
  by rewrite sub_char_newline_sub_spaces.
Qed.

Lemma map_result_clean_tags (l : list node) :
  forallb is_tag l = true →
  map_result clean_linebreaks l
  = Ok (map (fun n => sub_spaces false (markup n)) l).
Proof.
  induction l as [|[j s | j nm a cs] l IH]; simpl; [reflexivity|discriminate|].
  intros Hl. rewrite (IH Hl). pose proof (clean_linebreaks_tag j nm a cs) as E.
  unfold clean_linebreaks in E. simpl in E. by injection E as ->.
Qed.

Lemma map_result_clean_string (l : list node) :
  existsb (fun n => negb (is_tag n)) l = true →
  map_result clean_linebreaks l = Raise AttributeError.
Proof.
  induction l as [|[j s | j nm a cs] l IH]; simpl; [discriminate|reflexivity|].
  intros Hl. by rewrite (IH Hl).
Qed.

(** With elements only below the body, [__str__] returns their markup
    with every whitespace run replaced by one space. *)
Lemma __str___of_elements (self : CopyDoc) (b : node) :
  body (soup self) = Some b →
  forallb is_tag (node_contents b) = true →
  __str__ self
  = Ok (join (map (fun n => sub_spaces false (markup n)) (node_contents b))).
Proof.
  intros Hb Hl. unfold __str__. rewrite Hb.
  by rewrite (map_result_clean_tags _ Hl).
Qed.

(** With a string directly below the body, [__str__] raises. *)
Lemma __str___of_string_child (self : CopyDoc) (b : node) :
  body (soup self) = Some b →
  existsb (fun n => negb (is_tag n)) (node_contents b) = true →
  __str__ self = Raise AttributeError.
Proof.
  intros Hb Hl. unfold __str__. rewrite Hb.
  by rewrite (map_result_clean_string _ Hl).
Qed.

End Strings.

(** ** Classes without a rule in the style sheet *)

Section InlineStyles.
Context `{Collaborators}.

Lemma first_some_is_Some {A B} (f : A → option B) l x :
  In x l → f x ≠ None → first_some f l ≠ None.
Proof.
  induction l as [|y l IH]; simpl; [tauto|].
  intros [<-|Hx] Hf; destruct (f y) eqn:E; try done.
  by apply IH.
Qed.

Lemma first_some_witness {A B} (f : A → option B) l :
  first_some f l ≠ None → ∃ x, In x l ∧ f x ≠ None.
Proof.
  induction l as [|y l IH]; simpl; [done|].
  destruct (f y) eqn:E.
  - intros _. exists y. split; [by left | congruence].
  - intros Hl. destruct (IH Hl) as (x & Hx & Hf). exists x. split; [by right | done].
Qed.

(** A wrapped node still has a parent. *)
Lemma parent_in_wrapped i k nm n :
  parent_in i n ≠ None →
  parent_in i (replace_child i (fun c => [Tag k nm [] [c]]) n) ≠ None.
Proof.
  induction n as [j s | j nm' a cs IH] using node_ind; [done|].
  simpl. rewrite List.Forall_forall in IH.
  destruct (existsb (has_id i) (flat_map _ cs)) eqn:E'; [done|].
  destruct (existsb (has_id i) cs) eqn:E.
  - intros _. apply existsb_exists in E as (c & Hc & Hi).
    apply (first_some_is_Some _ _ (Tag k nm [] [c])).
    + apply in_flat_map. exists c. split; [done|]. rewrite Hi. by left.
    + simpl. by rewrite Hi.
  - intros Hp. apply first_some_witness in Hp as (c & Hc & Hp).
    apply (first_some_is_Some _ _ (replace_child i (fun c => [Tag k nm [] [c]]) c)).
    + apply in_flat_map. exists c. split; [done|].
      destruct (has_id i c) eqn:Hi; [|by left].
      exfalso. assert (existsb (has_id i) cs = true) by (apply existsb_exists; eauto).
      congruence.
    + by apply IH.
Qed.

Lemma wrap_keeps_parent i nm bs :
  parent bs i ≠ None →
  ∃ bs', wrap i nm bs = Ok bs' ∧ parent bs' i ≠ None.
Proof.
  intros Hp. unfold wrap. destruct (parent bs i) eqn:E; [|done].
  eexists. split; [reflexivity|].
  unfold parent, forest in *. cbn [root detached].
  change (first_some (parent_in i)
            (map (replace_child i (fun c => [Tag (next_id bs) nm [] [c]]))
                 (root bs :: detached bs)) ≠ None).
  assert (first_some (parent_in i) (root bs :: detached bs) ≠ None) as Hf by congruence.
  apply first_some_witness in Hf as (t & Ht & Hpt).
  apply (first_some_is_Some _ _
           (replace_child i (fun c => [Tag (next_id bs) nm [] [c]]) t)).
  - by apply (in_map (replace_child i (fun c => [Tag (next_id bs) nm [] [c]]))).
  - by apply parent_in_wrapped.
Qed.

Lemma wrap_if_styled_unknown_class key values new_tag tag self classes class_name :
  parent (soup self) tag ≠ None →
  classes_of (get (soup self) tag "class") = Ok classes →
  In class_name classes →
  stylesheet self !! ("." +:+ class_name) = None →
  wrap_if_styled key values new_tag tag self = Raise KeyError.
Proof.
  intros Hp Hc Hin Hs. unfold wrap_if_styled. rewrite Hc. cbn [Py.bind].
  clear Hc. revert self Hp Hs.
  induction classes as [|c classes IH]; [destruct Hin|]. intros self Hp Hs.
  cbn [for_each].
  destruct (stylesheet self !! ("." +:+ c)) as [styles|] eqn:Ec; [|reflexivity].
  destruct Hin as [->|Hin]; [congruence|].
  assert (∃ s', for_each
                  (fun item self =>
                     if String.eqb (fst item) key && str_in (snd item) values
                     then bs <- wrap tag new_tag (soup self) ;; Ok (with_soup bs self)
                     else Ok self) styles self = Ok s'
                ∧ stylesheet s' = stylesheet self
                ∧ parent (soup s') tag ≠ None) as (s' & -> & Hs' & Hp').
  { clear Ec. revert self Hp Hs. induction styles as [|item styles IHs]; intros self Hp Hs.
    - by exists self.
    - cbn [for_each]. destruct (_ && _).
      + destruct (wrap_keeps_parent tag new_tag (soup self) Hp) as (bs' & -> & Hp').
        cbn [Py.bind].
        destruct (IHs (with_soup bs' self) Hp' Hs) as (s' & E & Hs' & Hp'').
        exists s'. by rewrite E.
      + cbn [Py.bind]. by apply IHs. }
  cbn [Py.bind]. apply (IH Hin s' Hp'). by rewrite Hs'.
Qed.

(** A span of the document with a class that has no selector in the
    style sheet: the first check already raises [KeyError], and so does
    the whole treatment of the span; [unwrap_span] is not reached. *)
Lemma parse_span_unknown_class tag self classes class_name :
  parent (soup self) tag ≠ None →
  classes_of (get (soup self) tag "class") = Ok classes →
  In class_name classes →
  stylesheet self !! ("." +:+ class_name) = None →
  create_italic tag self = Raise KeyError
  ∧ parse_span tag self = Raise KeyError.
Proof.
  intros Hp Hc Hin Hs.
  assert (create_italic tag self = Raise KeyError) as E
    by (by apply (wrap_if_styled_unknown_class _ _ _ tag self classes class_name)).
  split; [exact E|]. unfold parse_span. by rewrite E.
Qed.

End InlineStyles.

(** ** Adjacent links, from the constructor to the string *)

Section EndToEnd.
Context `{Collaborators}.

(** [parse_attrs] on an anchor that has only a string [href]. *)
Lemma parse_attrs_anchor tag url resolved self :
  name (soup self) tag = Some "a" →
  attrs (soup self) tag = [("href", AStr url)] →
  _parse_href (AStr url) = Ok resolved →
  parse_attrs tag self
  = Ok (with_soup (set_attrs tag [("href", stored resolved)] (soup self)) self).
Proof.
  intros Hn Ha Hr. unfold parse_attrs. rewrite Hn, Ha.
  cbn [dict_get ATTR_WHITELIST String.eqb Ascii.eqb Bool.eqb for_each str_in existsb
       fst snd orb andb Py.bind _parse_attr].
  rewrite Hr. reflexivity.
Qed.

(** [remove_inline_comment] leaves the instance as it is or extracts the
    tag. *)
Lemma remove_inline_comment_cases tag self :
  remove_inline_comment tag self = self
  ∨ remove_inline_comment tag self = with_soup (extract tag (soup self)) self.
Proof.
  unfold remove_inline_comment. destruct (startswith _ "##"); [by right | by left].
Qed.

(** A body that consists of two adjacent links whose [href]s resolve to
    the same result, whatever their texts and URLs: the rendered document
    is the first anchor alone, with both texts and the resolved [href].
    The common result may be a destination or [None]. *)
Lemma two_links_end_to_end (url next_url text next_text : string)
    (resolved : option (list string)) :
  url ≠ "" → next_url ≠ "" →
  _parse_href (AStr url) = Ok resolved →
  _parse_href (AStr next_url) = Ok resolved →
  startswith (text +:+ next_text) "##" = false →
  (self <- init (Reference.new_soup
             (Examples.html_body
                [Tag 3 "a" [("href", AStr url)] [NavigableString 4 text];
                 Tag 5 "a" [("href", AStr next_url)] [NavigableString 6 next_text]]))
             [] ;;
   __str__ self)
  = Ok (sub_spaces false
          (markup (Tag 3 "a" [("href", stored resolved)]
                       [NavigableString 4 text; NavigableString 7 next_text]))).
Proof.
  intros Hu Hnu Hq Hnq Hc.
  unfold init, parse.
  set (self0 := {| soup := _ |}).
  assert (find_all "span" (root (soup self0)) = []) as -> by reflexivity.
  cbn [for_each Py.bind].
  assert (find_all "a" (root (soup self0)) = [3; 5]) as -> by reflexivity.
  cbn [for_each]. unfold parse_anchor at 1.
  assert (remove_comments 3 self0 = Ok self0) as -> by reflexivity.
  cbn [Py.bind].
  rewrite (check_next_merges_equal self0 3 5 url next_url
             [("href", AStr next_url)] [NavigableString 6 next_text]
             resolved); try done.
  cbn [Py.bind].
  set (s1 := blacklist 5 _).
  assert (parse_anchor 5 s1 = Ok s1) as -> by reflexivity.
  cbn [Py.bind]. unfold parse_body.
  assert (body (soup s1)
          = Some (Tag 2 "body" []
                    [Tag 3 "a" [("href", AStr url)]
                         [NavigableString 4 text; NavigableString 7 next_text];
                     Tag 5 "a" [("href", AStr next_url)] [NavigableString 6 next_text]]))
    as -> by reflexivity.
  match goal with |- context [find_all_tags ?b] =>
    assert (find_all_tags b = [3; 5]) as -> by reflexivity end.
  cbn [for_each]. unfold parse_body_tag at 1.
  assert (remove_empty 3 s1 = s1) as -> by reflexivity.
  assert (remove_inline_comment 3 s1 = s1) as ->.
  { unfold remove_inline_comment.
    assert (get_text (soup s1) 3 = text +:+ next_text) as -> by reflexivity.
    by rewrite Hc. }
  rewrite (parse_attrs_anchor 3 url resolved s1) by (reflexivity || exact Hq).
  cbn [Py.bind tokens blacklist with_soup fold_left].
  change (tokens s1) with (@nil (string * string)). cbn [fold_left].
  set (s2 := with_soup _ s1).
  assert (remove_blacklisted_tags 3 s2 = s2) as ->
    by (subst s2; destruct resolved; reflexivity).
  unfold parse_body_tag.
  assert (remove_empty 5 s2 = s2) as -> by reflexivity.
  assert (∃ s3, remove_inline_comment 5 s2 = s3
                ∧ name (soup s3) 5 = Some "a"
                ∧ attrs (soup s3) 5 = [("href", AStr next_url)]
                ∧ tokens s3 = []
                ∧ tags_blacklist s3 = [5]
                ∧ ∀ a, root (decompose 5 (set_attrs 5 a (soup s3)))
                       = Examples.html_body
                           [Tag 3 "a" [("href", stored resolved)]
                              [NavigableString 4 text; NavigableString 7 next_text]])
    as (s3 & -> & Hn3 & Ha3 & Ht3 & Hb3 & Hr3).
  { eexists. split; [reflexivity|]. unfold remove_inline_comment.
    destruct (startswith (get_text (soup s2) 5) "##"); repeat split; reflexivity. }
  rewrite (parse_attrs_anchor 5 next_url resolved s3) by done.
  cbn [Py.bind with_soup tokens]. rewrite Ht3. cbn [fold_left].
  unfold remove_blacklisted_tags.
  rewrite in_blacklist_member by (cbn [tags_blacklist with_soup]; rewrite Hb3; by left).
  unfold __str__, body. cbn [soup with_soup]. rewrite Hr3.
  cbn [Examples.html_body descendants node_contents flat_map self_and_descendants
       app List.filter named String.eqb Ascii.eqb Bool.eqb head map_result].
  rewrite clean_linebreaks_tag. reflexivity.
Qed.

(** A body that consists of three adjacent links whose [href]s resolve to
    the same result: the first anchor receives the text of the second
    only; the text of the third goes to the second anchor and disappears
    with it. *)
Lemma three_links_end_to_end (url1 url2 url3 text1 text2 text3 : string)
    (resolved : option (list string)) :
  url1 ≠ "" → url2 ≠ "" → url3 ≠ "" →
  _parse_href (AStr url1) = Ok resolved →
  _parse_href (AStr url2) = Ok resolved →
  _parse_href (AStr url3) = Ok resolved →
  startswith (text1 +:+ text2) "##" = false →
  (self <- init (Reference.new_soup
             (Examples.html_body
                [Tag 3 "a" [("href", AStr url1)] [NavigableString 4 text1];
                 Tag 5 "a" [("href", AStr url2)] [NavigableString 6 text2];
                 Tag 7 "a" [("href", AStr url3)] [NavigableString 8 text3]]))
             [] ;;
   __str__ self)
  = Ok (sub_spaces false
          (markup (Tag 3 "a" [("href", stored resolved)]
                       [NavigableString 4 text1; NavigableString 9 text2]))).
Proof.
  intros Hu1 Hu2 Hu3 Hq1 Hq2 Hq3 Hc.
  unfold init, parse.
  set (self0 := {| soup := _ |}).
  assert (find_all "span" (root (soup self0)) = []) as -> by reflexivity.
  cbn [for_each Py.bind].
  assert (find_all "a" (root (soup self0)) = [3; 5; 7]) as -> by reflexivity.
  cbn [for_each]. unfold parse_anchor at 1.
  assert (remove_comments 3 self0 = Ok self0) as -> by reflexivity.
  cbn [Py.bind].
  rewrite (check_next_merges_equal self0 3 5 url1 url2
             [("href", AStr url2)] [NavigableString 6 text2]
             resolved); try done.
  cbn [Py.bind].
  set (s1 := blacklist 5 _).
  unfold parse_anchor at 1.
  assert (remove_comments 5 s1 = Ok s1) as -> by reflexivity.
  cbn [Py.bind].
  rewrite (check_next_merges_equal s1 5 7 url2 url3
             [("href", AStr url3)] [NavigableString 8 text3]
             resolved); try done.
  cbn [Py.bind].
  set (s2 := blacklist 7 _).
  assert (parse_anchor 7 s2 = Ok s2) as -> by reflexivity.
  cbn [Py.bind]. unfold parse_body.
  match goal with |- context [body (soup s2)] =>
    assert (body (soup s2)
            = Some (Tag 2 "body" []
                      [Tag 3 "a" [("href", AStr url1)]
                           [NavigableString 4 text1; NavigableString 9 text2];
                       Tag 5 "a" [("href", AStr url2)]
                           [NavigableString 6 text2; NavigableString 10 text3];
                       Tag 7 "a" [("href", AStr url3)] [NavigableString 8 text3]]))
      as -> by reflexivity end.
  match goal with |- context [find_all_tags ?b] =>
    assert (find_all_tags b = [3; 5; 7]) as -> by reflexivity end.
  cbn [for_each]. unfold parse_body_tag at 1.
  assert (remove_empty 3 s2 = s2) as -> by reflexivity.
  assert (remove_inline_comment 3 s2 = s2) as ->.
  { unfold remove_inline_comment.
    assert (get_text (soup s2) 3 = text1 +:+ text2) as -> by reflexivity.
    by rewrite Hc. }
  rewrite (parse_attrs_anchor 3 url1 resolved s2) by (reflexivity || exact Hq1).
  cbn [Py.bind]. change (tokens (with_soup _ s2)) with (@nil (string * string)).
  cbn [fold_left].
  set (s3 := with_soup _ s2).
  assert (remove_blacklisted_tags 3 s3 = s3) as ->
    by (subst s3; destruct resolved; reflexivity).
  unfold parse_body_tag at 1.
  assert (remove_empty 5 s3 = s3) as -> by reflexivity.
  assert (∃ s4, remove_inline_comment 5 s3 = s4
                ∧ name (soup s4) 5 = Some "a"
                ∧ attrs (soup s4) 5 = [("href", AStr url2)]
                ∧ tokens s4 = []
                ∧ ∀ a, ∃ s5,
                    remove_blacklisted_tags 5 (with_soup (set_attrs 5 a (soup s4)) s4) = s5
                    ∧ remove_empty 7 s5 = s5
                    ∧ ∃ s6, remove_inline_comment 7 s5 = s6
                      ∧ name (soup s6) 7 = Some "a"
                      ∧ attrs (soup s6) 7 = [("href", AStr url3)]
                      ∧ tokens s6 = []
                      ∧ tags_blacklist s6 = [5; 7]
                      ∧ ∀ a', root (decompose 7 (set_attrs 7 a' (soup s6)))
                              = Examples.html_body
                                  [Tag 3 "a" [("href", stored resolved)]
                                     [NavigableString 4 text1; NavigableString 9 text2]])
    as (s4 & -> & Hn4 & Ha4 & Ht4 & Hrest).
  { assert (∀ s5, ∃ s6, remove_inline_comment 7 s5 = s6
                         ∧ (s6 = s5 ∨ s6 = with_soup (extract 7 (soup s5)) s5))
      as Hcases7.
    { intros s5. eexists. split; [reflexivity|]. apply remove_inline_comment_cases. }
    destruct (remove_inline_comment_cases 5 s3) as [E|E]; rewrite E;
      (eexists; split; [reflexivity|]; repeat split; try reflexivity;
       intros a; eexists; split; [reflexivity|]; split; [reflexivity|];
       match goal with |- ∃ s6, remove_inline_comment 7 ?s5 = s6 ∧ _ =>
         destruct (Hcases7 s5) as (s6 & E7 & [-> | ->]);
         eexists; (split; [exact E7|]); repeat split; reflexivity
       end). }
  rewrite (parse_attrs_anchor 5 url2 resolved s4) by done.
  cbn [Py.bind]. change (tokens (with_soup ?b s4)) with (tokens s4). rewrite Ht4.
  cbn [fold_left].
  destruct (Hrest [("href", stored resolved)])
    as (s5 & -> & He7 & s6 & Hi7 & Hn6 & Ha6 & Ht6 & Hb6 & Hr6).
  unfold parse_body_tag. rewrite He7, Hi7.
  rewrite (parse_attrs_anchor 7 url3 resolved s6) by done.
  cbn [Py.bind]. change (tokens (with_soup ?b s6)) with (tokens s6). rewrite Ht6.
  cbn [fold_left].
  unfold remove_blacklisted_tags.
  rewrite in_blacklist_member
    by (cbn [tags_blacklist with_soup]; rewrite Hb6; right; by left).
  unfold __str__, body. cbn [soup with_soup]. rewrite Hr6.
  cbn [Examples.html_body descendants node_contents flat_map self_and_descendants
       app List.filter named String.eqb Ascii.eqb Bool.eqb head map_result].
  rewrite clean_linebreaks_tag. reflexivity.
Qed.
End EndToEnd.

(** ** The examples, evaluated *)

Section Worked.
Import Reference Examples.

(** C1.  A span whose class has no rule in the style sheet:
    [self.stylesheet['.c9']] raises [KeyError] in [create_italic], the
    first of the checks, so the constructor fails; the span is neither
    wrapped nor unwrapped. *)
Theorem unknown_class_raises_KeyError :
  copydoc unknown_class [] = Raise KeyError.
Proof. vm_compute. reflexivity. Qed.

(** C2.  Three adjacent links to one destination: the second receives the
    text of the third and is then removed with it, so the anchor that
    remains reads "foobar" and "baz" is lost. *)
Theorem three_links_lose_the_third_text :
  rendered three_links []
  = Ok ("<a href=" +:+ quoted "https://example.com" +:+ ">foobar</a>").
Proof. vm_compute. reflexivity. Qed.

(** C3.  Two adjacent links to different pages, neither with a [q]: both
    resolve to [None], the comparison succeeds and they are merged; the
    anchor that remains has lost its target. *)
Theorem plain_links_are_merged :
  rendered plain_links [] = Ok "<a href>onetwo</a>".
Proof. vm_compute. reflexivity. Qed.

(** Two links are merged into one, the second is gone. *)
Example two_links_rendered :
  rendered two_links []
  = Ok ("<a href=" +:+ quoted "https://example.com" +:+ ">foobar</a>")
  ∧ survives two_links [] 5 = Some false.
Proof. split; vm_compute; reflexivity. Qed.

(** The image keeps [src] and [alt], the [div] keeps nothing. *)
Example img_and_div_rendered :
  rendered img_and_div []
  = Ok ("<img alt=" +:+ quoted "pic" +:+ " src=" +:+ quoted "x.png"
        +:+ "/><div>t</div>").
Proof. vm_compute. reflexivity. Qed.

(** The title line is taken out and the field holds its value. *)
Example titled_rendered :
  rendered titled [("Title:", "title")] = Ok "<p>intro</p><p>Title: Second</p>"
  ∧ field titled [("Title:", "title")] "title" = Some "Hello World".
Proof. split; vm_compute; reflexivity. Qed.


(** A span whose class is bold becomes [strong]; the span itself is gone. *)
Example styled_span_rendered :
  rendered styled_span [] = Ok "<p><strong>bold</strong> text</p>".
Proof. vm_compute. reflexivity. Qed.

(** The parent of a comment anchor is removed. *)
Example commented_rendered : rendered commented [] = Ok "<p>keep</p>".
Proof. vm_compute. reflexivity. Qed.

(** The empty paragraph is dropped, the [br] stays. *)
Example empty_p_and_br_rendered : rendered empty_p_and_br [] = Ok "<br/>".
Proof. vm_compute. reflexivity. Qed.

(** C9.  The text ["a\n\n  b"] directly in the body: [__str__] calls
    [decode] on the string itself and raises [AttributeError] instead of
    returning ["a b"]. *)
Theorem text_in_body_raises_AttributeError :
  rendered text_in_body [] = Raise AttributeError.
Proof. vm_compute. reflexivity. Qed.

(** Inside an element the same text is normalized. *)
Example text_in_p_rendered : rendered text_in_p [] = Ok "<p>a b</p>".
Proof. vm_compute. reflexivity. Qed.

(** *** Instances of the general theorems *)

Lemma remove_empty_prunes_non_void_witness :
  (remove_empty 3 (unparsed empty_p_and_br [])
   = with_soup (extract 3 (soup (unparsed empty_p_and_br [])))
               (unparsed empty_p_and_br [])
   ∧ in_document (soup (remove_empty 3 (unparsed empty_p_and_br []))) 3 = false)
  ∧ remove_empty 4 (unparsed empty_p_and_br []) = unparsed empty_p_and_br [].
Proof.
  split.
  - apply (remove_empty_prunes_non_void (unparsed empty_p_and_br []) 3
             (Tag 3 "p" [] []) "p"); reflexivity.
  - apply (remove_empty_prunes_non_void (unparsed empty_p_and_br []) 4
             (Tag 4 "br" [] []) "br"); reflexivity.
Defined.






End Worked.
(** * Further properties of the code *)

(** ** The style sheet *)

Section Stylesheet.
Context `{Collaborators}.




Lemma build_stylesheet_rules (bs : BeautifulSoup) :
  build_stylesheet bs
  = fold_left add_rule
      (flat_map (fun style => parseString (encode_contents style))
                (List.filter (named "style") (descendants (root bs))))
      ∅.
Proof.
  unfold build_stylesheet.
  generalize (∅ : gmap string (dict string)).
  induction (List.filter (named "style") (descendants (root bs))) as [|s l IH];
    intros m; simpl; [reflexivity|].
  by rewrite IH, fold_left_app.
Qed.

Lemma add_rules_other_selectors (rules : list css_rule) (sel : string)
    (m : gmap string (dict string)) :
  (∀ items, ¬ In (StyleRule sel items) rules) →
  fold_left add_rule rules m !! sel = m !! sel.
Proof.
  revert m. induction rules as [|r rules IH]; intros m Hno; [reflexivity|].
  simpl. rewrite IH by (intros items Hin; apply (Hno items); by right).
  destruct r as [s items|]; simpl; [|reflexivity].
  apply lookup_insert_ne. intros ->. apply (Hno items). by left.
Qed.


(** X2.  A selector that is the selector text of no style rule of any
    [style] element is not a key of the style sheet; rules of other types
    add nothing.  In particular the style sheet of a document without
    [style] element is empty. *)
Theorem build_stylesheet_absent_selector (bs : BeautifulSoup) (sel : string) :
  (∀ items,
     ¬ In (StyleRule sel items)
          (flat_map (fun style => parseString (encode_contents style))
                    (List.filter (named "style") (descendants (root bs))))) →
  build_stylesheet bs !! sel = None.
Proof.
  intros Hno. rewrite build_stylesheet_rules.
  by rewrite add_rules_other_selectors.
Qed.

End Stylesheet.

(** ** The rewriting of spans *)

Section SpanRewriting.
Context `{Collaborators}.

(** The inner loop of a check wraps once for each matching declaration. *)
Lemma styled_loop_matches key values new_tag tag styles self :
  for_each
    (fun item self =>
       if String.eqb (fst item) key && str_in (snd item) values
       then bs <- wrap tag new_tag (soup self) ;; Ok (with_soup bs self)
       else Ok self)
    styles self
  = for_each
      (fun _ self => bs <- wrap tag new_tag (soup self) ;; Ok (with_soup bs self))
      (List.filter (fun item => String.eqb (fst item) key && str_in (snd item) values)
                   styles)
      self.
Proof.
  revert self. induction styles as [|item styles IH]; intros self; [reflexivity|].
  simpl. destruct (String.eqb (fst item) key && str_in (snd item) values); simpl.
  - destruct (wrap tag new_tag (soup self)); simpl; [apply IH | reflexivity].
  - apply IH.
Qed.

(** A check whose classes have no matching declaration changes nothing. *)
Lemma wrap_if_styled_no_match key values new_tag tag self classes :
  classes_of (get (soup self) tag "class") = Ok classes →
  (∀ cls, In cls classes →
     ∃ styles, stylesheet self !! ("." +:+ cls) = Some styles
               ∧ ∀ item, In item styles →
                   String.eqb (fst item) key && str_in (snd item) values = false) →
  wrap_if_styled key values new_tag tag self = Ok self.
Proof.
  intros Hc Hall. unfold wrap_if_styled. rewrite Hc. cbn [Py.bind]. clear Hc.
  induction classes as [|cls classes IH]; [reflexivity|].
  cbn [for_each]. destruct (Hall cls) as (styles & -> & Hno); [by left|].
  rewrite styled_loop_matches.
  assert (List.filter (fun item => String.eqb (fst item) key && str_in (snd item) values)
                      styles = []) as ->.
  { clear -Hno. induction styles as [|item styles IHs]; [reflexivity|].
    simpl. rewrite (Hno item) by (by left). apply IHs.
    intros i Hi. apply Hno. by right. }
  cbn [for_each Py.bind]. apply IH. intros c Hc. apply Hall. by right.
Qed.

Lemma eqb_and_false (k v key : string) (values : list string) :
  ¬ (k = key ∧ In v values) → String.eqb k key && str_in v values = false.
Proof.
  intros Hn. apply not_true_is_false. intros [Hk Hv]%andb_true_iff. apply Hn.
  split; [by apply String.eqb_eq|].
  unfold str_in in Hv. apply existsb_exists in Hv as (x & Hx & E).
  apply String.eqb_eq in E. by subst.
Qed.

(** X3.  A span all of whose classes have an entry in the style sheet,
    none with [font-style: italic], [font-weight: bold] or [700], or
    [text-decoration: underline]: the three checks change nothing and
    raise nothing, and the treatment of the span is [unwrap_span] alone.
    A span without class is the case of the empty class list. *)
Theorem parse_span_without_whitelisted_style
    (self : CopyDoc) (tag : node_id) (classes : list string) :
  classes_of (get (soup self) tag "class") = Ok classes →
  (∀ cls, In cls classes →
     ∃ styles, stylesheet self !! ("." +:+ cls) = Some styles
               ∧ ∀ key value, In (key, value) styles →
                   ¬ (key = "font-style" ∧ In value ["italic"])
                   ∧ ¬ (key = "font-weight" ∧ In value ["bold"; "700"])
                   ∧ ¬ (key = "text-decoration" ∧ In value ["underline"])) →
  create_italic tag self = Ok self
  ∧ create_strong tag self = Ok self
  ∧ create_underline tag self = Ok self
  ∧ parse_span tag self = unwrap_span tag self.
Proof.
  intros Hc Hall.
  assert (∀ key values new_tag,
            (∀ cls, In cls classes →
               ∃ styles, stylesheet self !! ("." +:+ cls) = Some styles
                         ∧ ∀ k v, In (k, v) styles → ¬ (k = key ∧ In v values)) →
            wrap_if_styled key values new_tag tag self = Ok self) as Hcheck.
  { intros key values new_tag Hk. apply (wrap_if_styled_no_match _ _ _ _ _ classes Hc).
    intros cls Hcls. destruct (Hk cls Hcls) as (styles & Hs & Hno).
    exists styles. split; [exact Hs|]. intros [k v] Hin. apply eqb_and_false.
    by apply Hno. }
  assert (create_italic tag self = Ok self) as Ei.
  { apply Hcheck. intros cls Hcls. destruct (Hall cls Hcls) as (styles & Hs & Hno).
    exists styles. split; [exact Hs|]. intros k v Hin. by apply (Hno k v Hin). }
  assert (create_strong tag self = Ok self) as Es.
  { apply Hcheck. intros cls Hcls. destruct (Hall cls Hcls) as (styles & Hs & Hno).
    exists styles. split; [exact Hs|]. intros k v Hin. by apply (Hno k v Hin). }
  assert (create_underline tag self = Ok self) as Eu.
  { apply Hcheck. intros cls Hcls. destruct (Hall cls Hcls) as (styles & Hs & Hno).
    exists styles. split; [exact Hs|]. intros k v Hin. by apply (Hno k v Hin). }
  repeat split; try done. unfold parse_span.
  rewrite Ei. cbn [Py.bind]. rewrite Es. cbn [Py.bind]. by rewrite Eu.
Qed.

(** Unwrapping what was just wrapped leaves the new tag around the
    children of the old one. *)
Lemma unwrap_after_wrap i k nm n :
  k ≠ i →
  replace_child i node_contents (replace_child i (fun c => [Tag k nm [] [c]]) n)
  = replace_child i (fun c => [Tag k nm [] (node_contents c)]) n.
Proof.
  intros Hk. induction n as [j s | j nm' a cs IH] using node_ind; [reflexivity|].
  simpl. f_equal. induction IH as [|c cs Hc _ IHcs]; [reflexivity|].
  simpl. rewrite flat_map_app, IHcs. f_equal.
  destruct (has_id i c) eqn:E; simpl.
  - assert (has_id i (Tag k nm [] [c]) = false) as -> by (by apply has_id_false).
    simpl. by rewrite E, app_nil_r.
  - by rewrite has_id_replace_child, E, Hc.
Qed.

Lemma filter_unique_key (k v : string) (values : list string) (styles : dict string) :
  NoDup (keys styles) → In (k, v) styles → In v values →
  List.filter (fun item => String.eqb (fst item) k && str_in (snd item) values) styles
  = [(k, v)].
Proof.
  intros Hnd Hin Hv.
  assert (str_in v values = true) as Hsv.
  { unfold str_in. apply existsb_exists. exists v. split; [done|]. apply String.eqb_refl. }
  induction styles as [|[k' v'] styles IH]; [destruct Hin|].
  apply NoDup_cons in Hnd as [Hk Hnd]. simpl.
  destruct Hin as [[= -> ->]|Hin].
  - rewrite String.eqb_refl, Hsv. simpl. f_equal.
    clear IH Hnd. induction styles as [|[k2 v2] styles IHs]; [reflexivity|].
    simpl. destruct (String.eqb_spec k2 k) as [->|Hne]; simpl.
    + exfalso. apply Hk. simpl. by left.
    + apply IHs. intros Hin. apply Hk. simpl. by right.
  - destruct (String.eqb_spec k' k) as [->|Hne]; simpl.
    + exfalso. apply Hk. apply list_elem_of_In. unfold keys.
      apply in_map_iff. by exists (k, v).
    + by apply IH.
Qed.

(** X4.  A span of the document with one class, whose declarations
    (distinct properties) hold [text-decoration: underline] and neither
    italic nor bold: [parse_span] returns, and in the document a new [u]
    element without attributes stands where the span was, with the
    children of the span as its children. *)
Theorem parse_span_underline
    (self : CopyDoc) (tag : node_id) (cls : string) (styles : dict string) :
  parent (soup self) tag ≠ None →
  tag ≠ next_id (soup self) →
  classes_of (get (soup self) tag "class") = Ok [cls] →
  stylesheet self !! ("." +:+ cls) = Some styles →
  NoDup (keys styles) →
  In ("text-decoration", "underline") styles →
  (∀ key value, In (key, value) styles →
     ¬ (key = "font-style" ∧ In value ["italic"])
     ∧ ¬ (key = "font-weight" ∧ In value ["bold"; "700"])) →
  ∃ self',
    parse_span tag self = Ok self'
    ∧ root (soup self')
      = replace_child tag
          (fun c => [Tag (next_id (soup self)) "u" [] (node_contents c)])
          (root (soup self))
    ∧ fields self' = fields self
    ∧ tags_blacklist self' = tags_blacklist self.
Proof.
  intros Hp Hfresh Hc Hs Hnd Hu Hno.
  assert (∀ key values new_tag,
            (∀ k v, In (k, v) styles → ¬ (k = key ∧ In v values)) →
            wrap_if_styled key values new_tag tag self = Ok self) as Hcheck.
  { intros key values new_tag Hk. apply (wrap_if_styled_no_match _ _ _ _ _ [cls] Hc).
    intros c [<-|[]]. exists styles. split; [exact Hs|].
    intros [k v] Hin. apply eqb_and_false. by apply Hk. }
  unfold parse_span, create_italic, create_strong.
  rewrite Hcheck by (intros k v Hin; by apply (Hno k v Hin)). cbn [Py.bind].
  rewrite Hcheck by (intros k v Hin; by apply (Hno k v Hin)). cbn [Py.bind].
  unfold create_underline, wrap_if_styled. rewrite Hc. cbn [Py.bind for_each].
  rewrite Hs, styled_loop_matches.
  rewrite (filter_unique_key "text-decoration" "underline" ["underline"] styles)
    by (done || by left).
  cbn [for_each].
  destruct (wrap_keeps_parent tag "u" (soup self) Hp) as (bs1 & Hw & Hp1).
  rewrite Hw. cbn [Py.bind].
  unfold unwrap_span, unwrap. cbn [soup with_soup].
  destruct (parent bs1 tag) eqn:E; [|done]. cbn [Py.bind].
  eexists. split; [reflexivity|]. cbn [soup with_soup root fields tags_blacklist].
  split; [|done].
  unfold wrap in Hw. destruct (parent (soup self) tag); [|done].
  injection Hw as <-. cbn [root].
  apply unwrap_after_wrap. congruence.
Qed.

End SpanRewriting.

(** ** What the edits keep of the tree *)

Section Shape.
Variable P : node → Prop.
Hypothesis P_shape :
  ∀ j nm a a' cs cs', P (Tag j nm a cs) → P (Tag j nm a' cs').

Lemma replace_children_Forall i f cs :
  (∀ c, Forall P (self_and_descendants c) →
        Forall P (flat_map self_and_descendants (f c))) →
  Forall (fun c => Forall P (self_and_descendants c) →
                   Forall P (self_and_descendants (replace_child i f c))) cs →
  Forall P (flat_map self_and_descendants cs) →
  Forall P
    (flat_map self_and_descendants
       (flat_map (fun c => if has_id i c then f c else [replace_child i f c]) cs)).
Proof.
  intros Hf Hcs. induction Hcs as [|c cs Hc _ IH]; simpl; [done|].
  intros [Hc' Hcs']%Forall_app. rewrite flat_map_app. apply Forall_app.
  split; [|by apply IH].
  destruct (has_id i c); [by apply Hf|].
  simpl. rewrite app_nil_r. by apply Hc.
Qed.

Lemma replace_child_Forall i f n :
  (∀ c, Forall P (self_and_descendants c) →
        Forall P (flat_map self_and_descendants (f c))) →
  Forall P (self_and_descendants n) →
  Forall P (self_and_descendants (replace_child i f n)).
Proof.
  intros Hf. induction n as [j s | j nm a cs IH] using node_ind; [done|].
  simpl. intros [Hn Hcs]%Forall_cons. apply Forall_cons.
  split; [by apply (P_shape j nm a a cs)|].
  by apply replace_children_Forall.
Qed.

Lemma descendants_replace_child_Forall i f n :
  (∀ c, Forall P (self_and_descendants c) →
        Forall P (flat_map self_and_descendants (f c))) →
  Forall P (descendants n) →
  Forall P (descendants (replace_child i f n)).
Proof.
  intros Hf. destruct n as [j s | j nm a cs]; [done|].
  unfold descendants. simpl. apply replace_children_Forall; [exact Hf|].
  apply List.Forall_forall. intros c _. by apply replace_child_Forall.
Qed.

Lemma with_attrs_Forall a c :
  Forall P (self_and_descendants c) →
  Forall P (self_and_descendants (with_attrs a c)).
Proof.
  destruct c as [j s | j nm a' cs]; [done|]. simpl.
  intros [Hn Hcs]%Forall_cons. apply Forall_cons.
  split; [by apply (P_shape j nm a' a cs) | exact Hcs].
Qed.

(** The operations of the body pass: a node goes or changes its
    attributes, nothing comes. *)
Lemma extract_Forall i bs :
  Forall P (descendants (root bs)) → Forall P (descendants (root (extract i bs))).
Proof.
  unfold extract. destruct (parent bs i); [|done]. simpl.
  apply descendants_replace_child_Forall. intros c _. constructor.
Qed.

Lemma set_attrs_Forall i a bs :
  Forall P (descendants (root bs)) → Forall P (descendants (root (set_attrs i a bs))).
Proof.
  unfold set_attrs, map_forest, update_node. simpl. intros Hb.
  destruct (has_id i (root bs)).
  - by destruct (root bs).
  - apply descendants_replace_child_Forall; [|exact Hb].
    intros c Hc. simpl. rewrite app_nil_r. by apply with_attrs_Forall.
Qed.

Lemma wrap_Forall i nm bs bs' :
  (∀ k, P (Tag k nm [] [])) →
  Forall P (descendants (root bs)) → wrap i nm bs = Ok bs' →
  Forall P (descendants (root bs')).
Proof.
  intros Hnew Hb. unfold wrap. destruct (parent bs i); [|discriminate].
  intros [= <-]. simpl.
  apply descendants_replace_child_Forall; [|exact Hb].
  intros c Hc. simpl. rewrite !app_nil_r. apply Forall_cons.
  split; [by apply (P_shape _ nm [] [] []) | exact Hc].
Qed.

Lemma unwrap_Forall i bs bs' :
  Forall P (descendants (root bs)) → unwrap i bs = Ok bs' →
  Forall P (descendants (root bs')).
Proof.
  intros Hb. unfold unwrap. destruct (parent bs i); [|discriminate].
  intros [= <-]. simpl.
  apply descendants_replace_child_Forall; [|exact Hb].
  intros c Hc. rewrite self_and_descendants_eq in Hc.
  apply Forall_cons in Hc as [_ Hc]. exact Hc.
Qed.

End Shape.

Section Strings_of_tree.

Lemma flat_map_flat_map {A B C} (f : A → list B) (g : B → list C) l :
  flat_map g (flat_map f l) = flat_map (fun x => flat_map g (f x)) l.
Proof.
  induction l as [|x l IH]; simpl; [reflexivity|].
  by rewrite flat_map_app, IH.
Qed.

Lemma strings_of_tag j nm a cs :
  strings_of (Tag j nm a cs) = flat_map strings_of cs.
Proof. unfold strings_of. simpl. apply flat_map_flat_map. Qed.

Lemma child_in_descendants (c n : node) :
  In c (node_contents n) → In c (descendants n).
Proof.
  intros Hc. unfold descendants. apply in_flat_map. exists c.
  split; [exact Hc|]. rewrite self_and_descendants_eq. by left.
Qed.

Lemma descendant_of_child (d c n : node) :
  In c (node_contents n) → In d (descendants c) → In d (descendants n).
Proof.
  intros Hc Hd. unfold descendants at 1. apply in_flat_map. exists c.
  split; [exact Hc|]. rewrite self_and_descendants_eq. by right.
Qed.

(** Replacing children keeps the strings of the tree when each
    replacement has the strings of what it replaces. *)
Lemma strings_of_replace_child i f n :
  (∀ c, In c (descendants n) → has_id i c = true →
        flat_map strings_of (f c) = strings_of c) →
  strings_of (replace_child i f n) = strings_of n.
Proof.
  induction n as [j s | j nm a cs IH] using node_ind; [reflexivity|].
  intros Hf. simpl. rewrite !strings_of_tag, flat_map_flat_map.
  rewrite List.Forall_forall in IH.
  assert (∀ c, In c cs →
               flat_map strings_of (if has_id i c then f c else [replace_child i f c])
               = strings_of c) as Hc.
  { intros c Hc. destruct (has_id i c) eqn:E.
    - apply Hf; [|exact E]. by apply (child_in_descendants c (Tag j nm a cs)).
    - simpl. rewrite app_nil_r. apply (IH c Hc). intros d Hd Hi.
      apply Hf; [|exact Hi]. by apply (descendant_of_child d c (Tag j nm a cs)). }
  clear -Hc. induction cs as [|c cs IHcs]; [reflexivity|].
  simpl. rewrite Hc by (by left). f_equal. apply IHcs.
  intros c' Hc'. apply Hc. by right.
Qed.

End Strings_of_tree.

(** ** The span pass keeps the text *)

Section SpanText.
Context `{Collaborators}.

(** Among the nodes that carry the identity [i] there is no string. *)
Local Abbreviation tagged l :=
  (fun d : node => ∀ i : node_id, In i l → has_id i d = true → is_tag d = true).

Lemma for_each_preserves_in {S X} (I : S → Prop) (step : X → S → result S) l :
  (∀ x s s', In x l → I s → step x s = Ok s' → I s') →
  ∀ s s', I s → for_each step l s = Ok s' → I s'.
Proof.
  induction l as [|x l IH]; simpl; intros Hstep s s' Hs.
  - by intros [= <-].
  - destruct (step x s) as [s1|e] eqn:E; simpl; [|discriminate].
    apply IH; [|by apply (Hstep x s); [left|..]].
    intros y t t' Hy. apply Hstep. by right.
Qed.

Lemma NoDup_ident_inj (l : list node) x y :
  NoDup (map ident l) → In x l → In y l → ident x = ident y → x = y.
Proof.
  induction l as [|z l IH]; simpl; [done|].
  intros Hnd. apply NoDup_cons in Hnd as [Hz Hnd]. rewrite list_elem_of_In in Hz.
  intros [->|Hx] [->|Hy] Hid; try done.
  - exfalso. apply Hz. rewrite Hid. by apply in_map.
  - exfalso. apply Hz. rewrite <- Hid. by apply in_map.
  - by apply IH.
Qed.

Lemma wrap_keeps_strings i nm bs bs' :
  wrap i nm bs = Ok bs' → strings_of (root bs') = strings_of (root bs).
Proof.
  unfold wrap. destruct (parent bs i); [|discriminate]. intros [= <-]. simpl.
  apply strings_of_replace_child. intros c _ _. simpl.
  by rewrite strings_of_tag; simpl; rewrite !app_nil_r.
Qed.

Lemma unwrap_keeps_strings i bs bs' :
  Forall (tagged [i]) (descendants (root bs)) →
  unwrap i bs = Ok bs' → strings_of (root bs') = strings_of (root bs).
Proof.
  intros Ht. unfold unwrap. destruct (parent bs i); [|discriminate].
  intros [= <-]. simpl. apply strings_of_replace_child. intros c Hc Hi.
  rewrite List.Forall_forall in Ht. specialize (Ht c Hc i (or_introl eq_refl) Hi).
  destruct c as [j s | j nm a cs]; [discriminate|]. by rewrite strings_of_tag.
Qed.

Lemma wrap_if_styled_keeps_strings key values new_tag tag l T self self' :
  strings_of (root (soup self)) = T
  ∧ Forall (tagged l) (descendants (root (soup self))) →
  wrap_if_styled key values new_tag tag self = Ok self' →
  strings_of (root (soup self')) = T
  ∧ Forall (tagged l) (descendants (root (soup self'))).
Proof.
  intros Hs. unfold wrap_if_styled.
  destruct (classes_of _) as [classes|]; [|discriminate]. simpl.
  revert self self' Hs. apply for_each_preserves.
  intros cls s s' Hs. destruct (stylesheet s !! _) as [styles|]; [|discriminate].
  revert s s' Hs. apply for_each_preserves.
  intros item s s' [Hs Ht].
  destruct (_ && _); [|by intros [= <-]].
  destruct (wrap tag new_tag (soup s)) as [bs|] eqn:E; [|discriminate].
  intros [= <-]. simpl. split.
  - by rewrite (wrap_keeps_strings _ _ _ _ E).
  - by apply (wrap_Forall (tagged l)) in E.
Qed.

Lemma parse_span_keeps_strings tag l T self self' :
  In tag l →
  strings_of (root (soup self)) = T
  ∧ Forall (tagged l) (descendants (root (soup self))) →
  parse_span tag self = Ok self' →
  strings_of (root (soup self')) = T
  ∧ Forall (tagged l) (descendants (root (soup self'))).
Proof.
  intros Hl Hs. unfold parse_span.
  destruct (create_italic tag self) as [s1|] eqn:E1; [|discriminate].
  apply (wrap_if_styled_keeps_strings _ _ _ _ l T) in E1; [|exact Hs].
  cbn [Py.bind].
  destruct (create_strong tag s1) as [s2|] eqn:E2; [|discriminate].
  apply (wrap_if_styled_keeps_strings _ _ _ _ l T) in E2; [|exact E1].
  cbn [Py.bind].
  destruct (create_underline tag s2) as [s3|] eqn:E3; [|discriminate].
  apply (wrap_if_styled_keeps_strings _ _ _ _ l T) in E3; [|exact E2].
  cbn [Py.bind]. destruct E3 as [Hs3 Ht3]. unfold unwrap_span.
  destruct (unwrap tag (soup s3)) as [bs|] eqn:E; [|discriminate].
  intros [= <-]. simpl. split.
  - rewrite <- Hs3. apply (unwrap_keeps_strings tag (soup s3) bs); [|exact E].
    eapply List.Forall_impl; [|exact Ht3]. simpl.
    intros d Hd i [<-|[]]. by apply Hd.
  - by apply (unwrap_Forall (tagged l)) in E.
Qed.

(** X5.  The first loop of [parse] (wrap each [span] as its classes'
    styles say, then unwrap it) moves tags only: when the nodes of the
    document have distinct identities and the loop ends without an
    exception, the strings of the document are afterwards the same, in
    the same order, and so is its text. *)
Theorem span_pass_keeps_the_strings (self self' : CopyDoc) :
  NoDup (map ident (descendants (root (soup self)))) →
  for_each parse_span (find_all "span" (root (soup self))) self = Ok self' →
  strings_of (root (soup self')) = strings_of (root (soup self))
  ∧ node_text (root (soup self')) = node_text (root (soup self)).
Proof.
  intros Hnd Hloop.
  assert (strings_of (root (soup self')) = strings_of (root (soup self))) as Hs.
  { refine (proj1 (for_each_preserves_in
             (fun s => strings_of (root (soup s)) = strings_of (root (soup self))
                       ∧ Forall (tagged (find_all "span" (root (soup self))))
                                (descendants (root (soup s))))
             parse_span _ _ self self' _ Hloop)).
    - intros tag s s' Htag. by apply parse_span_keeps_strings.
    - split; [reflexivity|]. apply List.Forall_forall. intros d Hd i Hi Hid.
      unfold find_all in Hi. apply in_map_iff in Hi as (sp & Hsp & Hin).
      apply filter_In in Hin as [Hin Hnamed].
      apply has_id_true in Hid.
      assert (d = sp) as -> by (apply (NoDup_ident_inj _ _ _ Hnd Hd Hin); congruence).
      by destruct sp. }
  split; [exact Hs|]. unfold node_text. by rewrite Hs.
Qed.

End SpanText.

(** ** What [parse_attrs] leaves alone *)

Section AttrsFrame.
Context `{Collaborators}.

(** The elements and strings of a tree in document order, each with its
    identity and tag name. *)
Local Abbreviation skeleton n :=
  (map (fun d : node => (ident d, node_name d)) (self_and_descendants n)).

Lemma skeleton_with_attrs a c : skeleton (with_attrs a c) = skeleton c.
Proof. by destruct c. Qed.

Lemma skeleton_replace_child i a n :
  skeleton (replace_child i (fun c => [with_attrs a c]) n) = skeleton n.
Proof.
  induction n as [j s | j nm a' cs IH] using node_ind; [reflexivity|].
  simpl. f_equal. induction IH as [|c cs' Hc _ IHcs]; [reflexivity|].
  simpl. rewrite flat_map_app, !map_app, IHcs. f_equal.
  destruct (has_id i c); simpl; rewrite app_nil_r;
    [apply skeleton_with_attrs | exact Hc].
Qed.

Lemma skeleton_update_node i a n :
  skeleton (update_node i (with_attrs a) n) = skeleton n.
Proof.
  unfold update_node. destruct (has_id i n);
    [apply skeleton_with_attrs | apply skeleton_replace_child].
Qed.

Lemma strings_of_with_attrs a c : strings_of (with_attrs a c) = strings_of c.
Proof. destruct c; [reflexivity|]. simpl. by rewrite !strings_of_tag. Qed.

Lemma strings_of_update_node i a n :
  strings_of (update_node i (with_attrs a) n) = strings_of n.
Proof.
  unfold update_node. destruct (has_id i n); [apply strings_of_with_attrs|].
  apply strings_of_replace_child. intros c _ _. simpl.
  by rewrite app_nil_r, strings_of_with_attrs.
Qed.

Lemma find_node_with_attrs_other j a c :
  has_id j c = false → find_node j (with_attrs a c) = find_node j c.
Proof.
  intros E. rewrite (find_node_eq j c), E, find_node_eq.
  assert (has_id j (with_attrs a c) = false) as ->
    by (unfold has_id in *; by rewrite ident_with_attrs).
  by destruct c.
Qed.

Lemma find_node_replace_attrs_other i j a n :
  i ≠ j →
  node_attrs <$> find_node j (replace_child i (fun c => [with_attrs a c]) n)
  = node_attrs <$> find_node j n.
Proof.
  intros Hij. induction n as [k s | k nm a' cs IH] using node_ind; [reflexivity|].
  rewrite (find_node_eq j (Tag k nm a' cs)), find_node_eq, has_id_replace_child.
  destruct (has_id j (Tag k nm a' cs)); [reflexivity|]. simpl.
  induction IH as [|c cs' Hc _ IHcs]; [reflexivity|]. simpl.
  destruct (has_id i c) eqn:E; simpl.
  - rewrite find_node_with_attrs_other.
    + destruct (find_node j c); [reflexivity | exact IHcs].
    + apply has_id_false. apply has_id_true in E. congruence.
  - revert Hc.
    destruct (find_node j (replace_child _ _ c)), (find_node j c);
      simpl; intros Hc; try discriminate; [exact Hc | exact IHcs].
Qed.

Lemma find_node_update_attrs_other i j a n :
  i ≠ j →
  node_attrs <$> find_node j (update_node i (with_attrs a) n)
  = node_attrs <$> find_node j n.
Proof.
  intros Hij. unfold update_node. destruct (has_id i n) eqn:E.
  - rewrite find_node_with_attrs_other; [reflexivity|].
    apply has_id_false. apply has_id_true in E. congruence.
  - by apply find_node_replace_attrs_other.
Qed.

Lemma attrs_set_attrs_other i j a bs :
  i ≠ j → attrs (set_attrs i a bs) j = attrs bs j.
Proof.
  intros Hij. unfold attrs, lookup.
  change (forest (set_attrs i a bs))
    with (map (update_node i (with_attrs a)) (forest bs)).
  assert (∀ l, node_attrs <$> first_some (find_node j)
                                 (map (update_node i (with_attrs a)) l)
               = node_attrs <$> first_some (find_node j) l) as Hl.
  { induction l as [|n l IH]; [reflexivity|]. simpl.
    generalize (find_node_update_attrs_other i j a n Hij).
    destruct (find_node j (update_node _ _ n)), (find_node j n);
      simpl; intros Hn; try discriminate; [exact Hn | exact IH]. }
  generalize (Hl (forest bs)).
  destruct (first_some _ (map _ _)), (first_some _ (forest bs));
    simpl; intros Hn; try discriminate; congruence.
Qed.

Lemma parse_attrs_sets tag self self' :
  parse_attrs tag self = Ok self' →
  ∃ a, self' = with_soup (set_attrs tag a (soup self)) self.
Proof.
  unfold parse_attrs. destruct (name _ _) as [nm|]; [|intros [= <-]; eauto].
  destruct (dict_get nm _) as [allowed|]; [|intros [= <-]; eauto].
  destruct (for_each _ _ _) as [a|]; [|discriminate].
  intros [= <-]. eauto.
Qed.

(** X6.  [parse_attrs] edits the attributes of its tag and nothing else:
    when it returns, the document has the same elements and strings in
    the same order, with their identities and tag names, the same text
    strings, and every other node has the attributes it had; the style
    sheet, the blacklist, the token rules and the token fields are
    untouched. *)
Theorem parse_attrs_changes_attributes_only (tag : node_id) (self self' : CopyDoc) :
  parse_attrs tag self = Ok self' →
  skeleton (root (soup self')) = skeleton (root (soup self))
  ∧ strings_of (root (soup self')) = strings_of (root (soup self))
  ∧ (∀ j, j ≠ tag → attrs (soup self') j = attrs (soup self) j)
  ∧ stylesheet self' = stylesheet self
  ∧ tags_blacklist self' = tags_blacklist self
  ∧ tokens self' = tokens self
  ∧ fields self' = fields self.
Proof.
  intros (a & ->)%parse_attrs_sets. simpl. repeat split.
  - apply skeleton_update_node.
  - apply strings_of_update_node.
  - intros j Hj. apply attrs_set_attrs_other. congruence.
Qed.

End AttrsFrame.

(** ** The body pass only removes *)

Section BodyFrame.
Context `{Collaborators}.
Variable P : node → Prop.
Hypothesis P_shape :
  ∀ j nm a a' cs cs', P (Tag j nm a cs) → P (Tag j nm a' cs').

Local Abbreviation holds self := (Forall P (descendants (root (soup self)))).

Lemma remove_empty_Forall tag self :
  holds self → holds (remove_empty tag self).
Proof.
  intros Hs. unfold remove_empty. destruct (_ && _); [|exact Hs].
  simpl. by apply extract_Forall.
Qed.

Lemma remove_inline_comment_Forall tag self :
  holds self → holds (remove_inline_comment tag self).
Proof.
  intros Hs. destruct (remove_inline_comment_cases tag self) as [->| ->];
    [exact Hs|]. simpl. by apply extract_Forall.
Qed.

Lemma parse_attrs_Forall tag self self' :
  holds self → parse_attrs tag self = Ok self' → holds self'.
Proof.
  intros Hs (a & ->)%parse_attrs_sets. simpl. by apply set_attrs_Forall.
Qed.

Lemma find_token_Forall tag token attr self :
  holds self → holds (find_token tag token attr self).
Proof.
  intros Hs. unfold find_token. destruct (negb _); [|exact Hs].
  destruct (startswith _ _); [|exact Hs]. simpl. by apply extract_Forall.
Qed.

Lemma find_tokens_Forall tag rules self :
  holds self →
  holds (fold_left (fun self rule => find_token tag (fst rule) (snd rule) self)
                   rules self).
Proof.
  revert self. induction rules as [|r rules IH]; intros self Hs; [exact Hs|].
  simpl. apply IH. by apply find_token_Forall.
Qed.

Lemma remove_blacklisted_tags_Forall tag self :
  holds self → holds (remove_blacklisted_tags tag self).
Proof.
  intros Hs. unfold remove_blacklisted_tags. destruct (in_blacklist _ _); [|exact Hs].
  simpl. by apply extract_Forall.
Qed.

Lemma parse_body_tag_Forall tag self self' :
  holds self → parse_body_tag tag self = Ok self' → holds self'.
Proof.
  intros Hs. unfold parse_body_tag.
  destruct (parse_attrs tag _) as [s1|] eqn:E; [|discriminate].
  intros [= <-]. apply remove_blacklisted_tags_Forall, find_tokens_Forall.
  apply (parse_attrs_Forall tag _ s1) in E; [exact E|].
  by apply remove_inline_comment_Forall, remove_empty_Forall.
Qed.

Lemma parse_body_Forall self self' :
  holds self → parse_body self = Ok self' → holds self'.
Proof.
  intros Hs. unfold parse_body. destruct (body _); [|by intros [= <-]].
  revert self self' Hs. apply for_each_preserves.
  intros tag s s'. apply parse_body_tag_Forall.
Qed.

End BodyFrame.

Section BodyRemoves.
Context `{Collaborators}.

(** X7.  The third loop of [parse] only removes nodes and rewrites
    attributes: every node of the document after it has been there
    before, with the same identity and tag name, and strings with the
    same value. *)
Theorem body_pass_adds_nothing (self self' : CopyDoc) :
  parse_body self = Ok self' →
  ∀ d, In d (descendants (root (soup self'))) →
       ∃ d0, In d0 (descendants (root (soup self)))
             ∧ ident d0 = ident d ∧ node_name d0 = node_name d
             ∧ (is_tag d = false → d0 = d).
Proof.
  intros Hp.
  apply (parse_body_Forall
           (fun d => ∃ d0, In d0 (descendants (root (soup self)))
                           ∧ ident d0 = ident d ∧ node_name d0 = node_name d
                           ∧ (is_tag d = false → d0 = d))) in Hp.
  - by rewrite List.Forall_forall in Hp.
  - intros j nm a a' cs cs' (d0 & Hd0 & Hi & Hn & _). by exists d0.
  - apply List.Forall_forall. intros d Hd. by exists d.
Qed.

Lemma parse_body_tag_keeps_absent j tag self self' :
  in_document (soup self) j = false → parse_body_tag tag self = Ok self' →
  in_document (soup self') j = false.
Proof.
  rewrite !in_document_false. intros Hj Hp.
  apply (parse_body_tag_Forall (fun d => ident d ≠ j)) in Hp.
  - by rewrite List.Forall_forall in Hp.
  - done.
  - by apply List.Forall_forall.
Qed.

Lemma find_tokens_blacklist tag rules self :
  tags_blacklist
    (fold_left (fun self rule => find_token tag (fst rule) (snd rule) self)
               rules self)
  = tags_blacklist self.
Proof.
  revert self. induction rules as [|r rules IH]; intros self; [reflexivity|].
  simpl. rewrite IH. unfold find_token.
  destruct (negb _); [|reflexivity]. by destruct (startswith _ _).
Qed.

Lemma parse_body_tag_blacklist tag self self' :
  parse_body_tag tag self = Ok self' →
  tags_blacklist self' = tags_blacklist self
  ∧ (In tag (tags_blacklist self) → in_document (soup self') tag = false).
Proof.
  unfold parse_body_tag.
  destruct (parse_attrs tag _) as [s1|] eqn:E; [|discriminate].
  apply parse_attrs_sets in E as (a & ->). intros [= <-].
  set (s2 := fold_left _ _ _).
  assert (tags_blacklist s2 = tags_blacklist self) as Hb.
  { unfold s2. rewrite find_tokens_blacklist. simpl.
    destruct (remove_inline_comment_cases tag (remove_empty tag self)) as [->| ->];
      simpl; unfold remove_empty; by destruct (_ && _). }
  split.
  - rewrite <- Hb. unfold remove_blacklisted_tags. by destruct (in_blacklist _ _).
  - intros Hin. unfold remove_blacklisted_tags.
    rewrite in_blacklist_member by (by rewrite Hb). simpl.
    apply decompose_not_in_document.
Qed.

(** X8.  After the third loop of [parse], no tag of the body that the
    link pass has put on the blacklist is part of the document. *)
Theorem body_pass_removes_blacklisted (self self' : CopyDoc) (b : node) :
  body (soup self) = Some b →
  parse_body self = Ok self' →
  ∀ tag, In tag (find_all_tags b) → In tag (tags_blacklist self) →
         in_document (soup self') tag = false.
Proof.
  intros Hb. unfold parse_body. rewrite Hb. clear Hb.
  generalize (find_all_tags b). intros l. revert self.
  induction l as [|x l IH]; intros self Hp tag; [intros []|].
  simpl in Hp. destruct (parse_body_tag x self) as [s1|] eqn:E; [|discriminate].
  simpl in Hp. destruct (parse_body_tag_blacklist _ _ _ E) as [Hbl Hx].
  intros [->|Htag] Hin.
  - revert Hp. apply (for_each_preserves
                        (fun s => in_document (soup s) tag = false) parse_body_tag).
    + intros y s s'. apply parse_body_tag_keeps_absent.
    + by apply Hx.
  - apply (IH s1 Hp tag Htag). by rewrite Hbl.
Qed.

End BodyRemoves.

(** ** Trimmed values *)

Section Trim.









End Trim.

(** ** What the constructor leaves on the instance *)

Section Instance.
Context `{Collaborators}.

(** The style sheet, the token rules and the token fields. *)
Local Abbreviation settings self := (stylesheet self, tokens self, fields self).






(** The token fields that satisfy [Q], as long as the rules are [rules]. *)
Local Abbreviation fields_in rules Q self :=
  ((stylesheet self, tokens self) = rules
   ∧ ∀ attr v, fields self !! attr = Some v → Q attr v).





End Instance.

(** ** Rendering *)

Section Rendered.
Context `{Collaborators}.



Lemma list_ascii_of_string_append s t :
  list_ascii_of_string (s +:+ t) = list_ascii_of_string s ++ list_ascii_of_string t.
Proof.
  induction s as [|c s IH]; [reflexivity|].
  change (c :: list_ascii_of_string (s +:+ t)
          = c :: (list_ascii_of_string s ++ list_ascii_of_string t)).
  by rewrite IH.
Qed.

Lemma in_join c l :
  In c (list_ascii_of_string (join l)) →
  ∃ s, In s l ∧ In c (list_ascii_of_string s).
Proof.
  induction l as [|s l IH]; [intros []|].
  rewrite join_cons, list_ascii_of_string_append.
  intros [Hc|Hc]%in_app_or.
  - exists s. split; [by left | exact Hc].
  - destruct (IH Hc) as (s' & Hs' & Hc'). exists s'. split; [by right | exact Hc'].
Qed.


(** X11.  With a body, [__str__] returns a string exactly when every
    child of the body is a tag; otherwise the exception is
    [AttributeError]. *)
Theorem str_returns_iff_body_holds_tags (self : CopyDoc) (b : node) :
  body (soup self) = Some b →
  ((∃ out, __str__ self = Ok out) ↔ forallb is_tag (node_contents b) = true)
  ∧ (∀ e, __str__ self = Raise e → e = AttributeError).
Proof.
  intros Hb. destruct (forallb is_tag (node_contents b)) eqn:E.
  - rewrite (__str___of_elements self b Hb E). split; [|discriminate].
    split; [done | eauto].
  - assert (existsb (fun n => negb (is_tag n)) (node_contents b) = true) as E'.
    { clear -E. induction (node_contents b) as [|n l IH]; simpl in *; [discriminate|].
      destruct (is_tag n); simpl in *; [by apply IH | reflexivity]. }
    rewrite (__str___of_string_child self b Hb E'). split; [|by intros e [= <-]].
    split; [by intros [out Ho] | discriminate].
Qed.

(** X12.  Whatever [__str__] returns has no whitespace other than the
    space: no newline, tab or carriage return of the source markup or
    text reaches the output. *)
Theorem str_leaves_spaces_only (self : CopyDoc) (out : string) :
  __str__ self = Ok out →
  ∀ c, In c (list_ascii_of_string out) → isspace c = true → c = " "%char.
Proof.
  unfold __str__. destruct (body (soup self)) as [b|]; [|by intros [= <-] c []].
  destruct (forallb is_tag (node_contents b)) eqn:E.
  - rewrite (map_result_clean_tags _ E). intros [= <-] c Hc.
    apply in_join in Hc as (s & Hs & Hc).
    apply in_map_iff in Hs as (n & <- & _). revert Hc. apply sub_spaces_only_spaces.
  - assert (existsb (fun n => negb (is_tag n)) (node_contents b) = true) as E'.
    { clear -E. induction (node_contents b) as [|n l IH]; simpl in *; [discriminate|].
      destruct (is_tag n); simpl in *; [by apply IH | reflexivity]. }
    by rewrite (map_result_clean_string _ E').
Qed.

End Rendered.

Section EmptyElements.
Context `{Collaborators}.

(** X13.  What [remove_empty] does is decided by the children and the
    tag name alone: an element without children is extracted unless its
    name is that of a void element (the test on its text never changes
    the outcome, a tag without children has no text), and an element
    with a child is kept, also when all it holds is blank. *)
Theorem remove_empty_decided_by_children
    (self : CopyDoc) (tag : node_id) (n : node) (nm : string) :
  lookup (soup self) tag = Some n →
  node_name n = Some nm →
  (node_contents n = [] → can_be_empty_element nm = false →
   remove_empty tag self = with_soup (extract tag (soup self)) self)
  ∧ (node_contents n ≠ [] → remove_empty tag self = self).
Proof.
  intros Hl Hn. destruct n as [j s | j nm' a cs]; [discriminate|].
  injection Hn as ->. unfold remove_empty, contents, stripped_strings.
  rewrite Hl. simpl. split.
  - intros -> ->. by rewrite strings_of_tag.
  - intros Hcs. by destruct cs.
Qed.

End EmptyElements.

(** ** The span pass leaves no span *)

Section SpanRemoval.
Context `{Collaborators}.

Local Abbreviation ids_of n := (map ident (self_and_descendants n)).
Local Abbreviation ids_below cs := (map ident (flat_map self_and_descendants cs)).

(** The identities [l] after each [i] among them got [k] put in front. *)
Local Abbreviation with_wrapper i k l :=
  (flat_map (fun x : node_id => if (x =? i)%nat then [k; x] else [x]) l).

Lemma wrap_if_styled_preserves (I : CopyDoc → Prop) key values new_tag tag :
  (∀ s bs, I s → wrap tag new_tag (soup s) = Ok bs → I (with_soup bs s)) →
  ∀ self self', I self → wrap_if_styled key values new_tag tag self = Ok self' → I self'.
Proof.
  intros Hwrap self self' Hs. unfold wrap_if_styled.
  destruct (classes_of _) as [classes|]; [|discriminate]. simpl.
  revert self self' Hs. apply for_each_preserves.
  intros cls s s' Hs. destruct (stylesheet s !! _) as [styles|]; [|discriminate].
  revert s s' Hs. apply for_each_preserves.
  intros item s s' Hs.
  destruct (_ && _); [|by intros [= <-]].
  destruct (wrap tag new_tag (soup s)) as [bs|] eqn:E; [|discriminate].
  intros [= <-]. by apply Hwrap.
Qed.

Lemma parse_span_preserves (I J : CopyDoc → Prop) tag :
  (∀ nm s bs, In nm ["em"; "strong"; "u"] → I s →
              wrap tag nm (soup s) = Ok bs → I (with_soup bs s)) →
  (∀ s bs, I s → unwrap tag (soup s) = Ok bs → J (with_soup bs s)) →
  ∀ self self', I self → parse_span tag self = Ok self' → J self'.
Proof.
  intros Hwrap Hunwrap self self' Hs. unfold parse_span.
  destruct (create_italic tag self) as [s1|] eqn:E1; [|discriminate].
  apply (wrap_if_styled_preserves I) in E1;
    [|intros s bs; apply Hwrap; simpl; tauto|exact Hs].
  cbn [Py.bind].
  destruct (create_strong tag s1) as [s2|] eqn:E2; [|discriminate].
  apply (wrap_if_styled_preserves I) in E2;
    [|intros s bs; apply Hwrap; simpl; tauto|exact E1].
  cbn [Py.bind].
  destruct (create_underline tag s2) as [s3|] eqn:E3; [|discriminate].
  apply (wrap_if_styled_preserves I) in E3;
    [|intros s bs; apply Hwrap; simpl; tauto|exact E2].
  cbn [Py.bind]. unfold unwrap_span.
  destruct (unwrap tag (soup s3)) as [bs|] eqn:E; [|discriminate].
  intros [= <-]. by apply Hunwrap.
Qed.

Lemma filter_absent (i : node_id) (l : list node_id) :
  i ∉ l → filter (fun x => x ≠ i) l = l.
Proof.
  induction l as [|x l IH]; [reflexivity|].
  intros [Hx Hl]%not_elem_of_cons.
  rewrite filter_cons_True by done. by rewrite IH.
Qed.

Lemma with_wrapper_absent i k (l : list node_id) :
  i ∉ l → with_wrapper i k l = l.
Proof.
  induction l as [|x l IH]; [reflexivity|].
  intros [Hx Hl]%not_elem_of_cons. simpl.
  destruct (Nat.eqb_spec x i) as [->|_]; [done|]. simpl. by rewrite IH.
Qed.

Lemma elem_of_with_wrapper i k (l : list node_id) y :
  y ∈ with_wrapper i k l → y = k ∨ y ∈ l.
Proof.
  induction l as [|x l IH]; simpl; [by right|].
  destruct (x =? i)%nat; simpl.
  - rewrite !elem_of_cons. intros [->|[->|Hy]]; [by left|right; by left|].
    destruct (IH Hy) as [->|Hl]; [by left | right; by right].
  - rewrite !elem_of_cons. intros [->|Hy]; [right; by left|].
    destruct (IH Hy) as [->|Hl]; [by left | right; by right].
Qed.

Lemma NoDup_with_wrapper i k (l : list node_id) :
  NoDup l → k ∉ l → NoDup (with_wrapper i k l).
Proof.
  induction l as [|x l IH]; [constructor|].
  intros [Hx Hl]%NoDup_cons [Hkx Hk]%not_elem_of_cons. simpl.
  destruct (Nat.eqb_spec x i) as [->|Hxi]; simpl.
  - rewrite with_wrapper_absent by done. apply NoDup_cons. split.
    + rewrite elem_of_cons. intros [?|?]; [congruence | done].
    + by apply NoDup_cons.
  - apply NoDup_cons. split; [|by apply IH].
    intros [->|Hin]%elem_of_with_wrapper; [congruence | done].
Qed.

(** The identities below a tree after [unwrap] and after [wrap]. *)
Lemma unwrap_ids_children i cs :
  Forall (fun c => NoDup (ids_of c) → has_id i c = false →
                   ids_of (replace_child i node_contents c)
                   = filter (fun x => x ≠ i) (ids_of c)) cs →
  NoDup (ids_below cs) →
  ids_below (flat_map (fun c => if has_id i c then node_contents c
                                else [replace_child i node_contents c]) cs)
  = filter (fun x => x ≠ i) (ids_below cs).
Proof.
  induction 1 as [|c cs Hc _ IH]; [reflexivity|]. simpl.
  rewrite flat_map_app, !map_app, filter_app.
  intros (Hndc & _ & Hndcs)%NoDup_app. rewrite (IH Hndcs). f_equal.
  destruct (has_id i c) eqn:E.
  - rewrite self_and_descendants_eq in *. simpl in *.
    apply has_id_true in E. rewrite E in *.
    apply NoDup_cons in Hndc as [Hi _].
    rewrite filter_cons_False by (intros Hne; by apply Hne).
    by rewrite filter_absent.
  - simpl. rewrite app_nil_r. by apply Hc.
Qed.

Lemma unwrap_ids_node i n :
  NoDup (ids_of n) → has_id i n = false →
  ids_of (replace_child i node_contents n) = filter (fun x => x ≠ i) (ids_of n).
Proof.
  induction n as [j s | j nm a cs IH] using node_ind; intros Hnd Hi;
    apply has_id_false in Hi; simpl in *.
  - by rewrite filter_cons_True.
  - rewrite filter_cons_True by done. f_equal.
    apply NoDup_cons in Hnd as [_ Hnd]. by apply unwrap_ids_children.
Qed.

Lemma unwrap_ids i n :
  NoDup (map ident (descendants n)) →
  map ident (descendants (replace_child i node_contents n))
  = filter (fun x => x ≠ i) (map ident (descendants n)).
Proof.
  destruct n as [j s | j nm a cs]; [reflexivity|]. unfold descendants. simpl.
  apply unwrap_ids_children. apply List.Forall_forall.
  intros c _. apply unwrap_ids_node.
Qed.

Lemma wrap_ids_children i k nm cs :
  Forall (fun c => NoDup (ids_of c) → has_id i c = false →
                   ids_of (replace_child i (fun c => [Tag k nm [] [c]]) c)
                   = with_wrapper i k (ids_of c)) cs →
  NoDup (ids_below cs) →
  ids_below (flat_map (fun c => if has_id i c then [Tag k nm [] [c]]
                                else [replace_child i (fun c => [Tag k nm [] [c]]) c]) cs)
  = with_wrapper i k (ids_below cs).
Proof.
  induction 1 as [|c cs Hc _ IH]; [reflexivity|]. simpl.
  rewrite flat_map_app, !map_app, flat_map_app.
  intros (Hndc & _ & Hndcs)%NoDup_app. rewrite (IH Hndcs). f_equal.
  destruct (has_id i c) eqn:E.
  - simpl. rewrite !app_nil_r.
    rewrite self_and_descendants_eq in *. simpl in *.
    apply has_id_true in E. rewrite E in *. rewrite Nat.eqb_refl. simpl.
    apply NoDup_cons in Hndc as [Hi _]. by rewrite with_wrapper_absent.
  - simpl. rewrite app_nil_r. by apply Hc.
Qed.

Lemma wrap_ids_node i k nm n :
  NoDup (ids_of n) → has_id i n = false →
  ids_of (replace_child i (fun c => [Tag k nm [] [c]]) n)
  = with_wrapper i k (ids_of n).
Proof.
  induction n as [j s | j nm' a cs IH] using node_ind; intros Hnd Hi;
    unfold has_id in Hi; simpl in *; rewrite Hi; simpl.
  - reflexivity.
  - f_equal. apply NoDup_cons in Hnd as [_ Hnd]. by apply wrap_ids_children.
Qed.

Lemma wrap_ids i k nm n :
  NoDup (map ident (descendants n)) →
  map ident (descendants (replace_child i (fun c => [Tag k nm [] [c]]) n))
  = with_wrapper i k (map ident (descendants n)).
Proof.
  destruct n as [j s | j nm' a cs]; [reflexivity|]. unfold descendants. simpl.
  apply wrap_ids_children. apply List.Forall_forall.
  intros c _. apply wrap_ids_node.
Qed.

(** The nodes of the document have distinct identities, all of them
    below the identity of the next object. *)
Local Abbreviation well_formed bs :=
  (NoDup (map ident (descendants (root bs)))
   ∧ Forall (fun d => ident d < next_id bs) (descendants (root bs))).

Lemma wrap_well_formed i nm bs bs' :
  well_formed bs → wrap i nm bs = Ok bs' → well_formed bs'.
Proof.
  intros [Hnd Hlt]. unfold wrap. destruct (parent bs i); [|discriminate].
  intros [= <-]. simpl.
  assert (next_id bs ∉ map ident (descendants (root bs))) as Hfresh.
  { rewrite list_elem_of_In. intros (d & Hd & Hin)%in_map_iff.
    rewrite List.Forall_forall in Hlt. specialize (Hlt d Hin). lia. }
  split.
  - rewrite wrap_ids by done. by apply NoDup_with_wrapper.
  - apply List.Forall_forall. intros d Hd.
    apply (in_map ident) in Hd. rewrite wrap_ids in Hd by done.
    apply list_elem_of_In, elem_of_with_wrapper in Hd as [->|Hd]; [lia|].
    apply list_elem_of_In, in_map_iff in Hd as (d0 & <- & Hd0).
    rewrite List.Forall_forall in Hlt. specialize (Hlt d0 Hd0). lia.
Qed.

Lemma unwrap_well_formed i bs bs' :
  well_formed bs → unwrap i bs = Ok bs' →
  well_formed bs' ∧ in_document bs' i = false.
Proof.
  intros [Hnd Hlt]. unfold unwrap. destruct (parent bs i); [|discriminate].
  intros [= <-]. simpl.
  assert (∀ d, In d (descendants (replace_child i node_contents (root bs))) →
               ident d ≠ i ∧ ident d < next_id bs) as Hd.
  { intros d Hd. apply (in_map ident) in Hd. rewrite unwrap_ids in Hd by done.
    apply list_elem_of_In, list_elem_of_filter in Hd as [Hi Hd]. split; [exact Hi|].
    apply list_elem_of_In, in_map_iff in Hd as (d0 & <- & Hd0).
    rewrite List.Forall_forall in Hlt. by apply Hlt. }
  repeat split.
  - rewrite unwrap_ids by done. by apply NoDup_filter.
  - apply List.Forall_forall. intros d Hin. by apply Hd.
  - apply in_document_false. simpl. intros d Hin. by apply Hd.
Qed.

Local Abbreviation spans_among rem :=
  (fun d : node => named "span" d = true → In (ident d) rem).

Lemma parse_span_leaves_no_span tag rem self self' :
  well_formed (soup self)
  ∧ Forall (spans_among (tag :: rem)) (descendants (root (soup self))) →
  parse_span tag self = Ok self' →
  well_formed (soup self')
  ∧ Forall (spans_among rem) (descendants (root (soup self'))).
Proof.
  revert self self'.
  apply (parse_span_preserves
           (fun s => well_formed (soup s)
                     ∧ Forall (spans_among (tag :: rem)) (descendants (root (soup s))))
           (fun s => well_formed (soup s)
                     ∧ Forall (spans_among rem) (descendants (root (soup s))))).
  - intros nm s bs Hnm [Hwf Hsp] E. simpl. split.
    + by apply (wrap_well_formed tag nm (soup s)).
    + apply (wrap_Forall (spans_among (tag :: rem))) in E; try done.
      intros k. simpl in Hnm. simpl.
      destruct Hnm as [<-|[<-|[<-|[]]]]; discriminate.
  - intros s bs [Hwf Hsp] E. simpl.
    destruct (unwrap_well_formed _ _ _ Hwf E) as [Hwf' Hout]. split; [exact Hwf'|].
    apply (unwrap_Forall (spans_among (tag :: rem))) in E; try done.
    rewrite in_document_false in Hout.
    rewrite List.Forall_forall in *. intros d Hd Hsd.
    destruct (E d Hd Hsd) as [Hi|Hi]; [|exact Hi].
    destruct (Hout d Hd). by symmetry.
Qed.

(** X14.  After the first loop of [parse] no [span] is left: when the
    nodes of the document have distinct identities, all below that of
    the next object, and the loop ends without an exception, the document
    has no element named [span]. *)
Theorem span_pass_leaves_no_span (self self' : CopyDoc) :
  NoDup (map ident (descendants (root (soup self)))) →
  Forall (fun d => ident d < next_id (soup self)) (descendants (root (soup self))) →
  for_each parse_span (find_all "span" (root (soup self))) self = Ok self' →
  find_all "span" (root (soup self')) = [].
Proof.
  intros Hnd Hlt Hloop.
  assert (well_formed (soup self')
          ∧ Forall (spans_among []) (descendants (root (soup self')))) as [_ Hsp].
  { revert Hloop.
    assert (well_formed (soup self)
            ∧ Forall (spans_among (find_all "span" (root (soup self))))
                     (descendants (root (soup self)))) as Hs.
    { split; [by split|]. apply List.Forall_forall. intros d Hd Hsd.
      unfold find_all. apply in_map. by apply filter_In. }
    revert Hs. generalize (find_all "span" (root (soup self))). intros l.
    clear Hnd Hlt. revert self.
    induction l as [|x l IH]; intros self Hs; simpl; [by intros [= <-]|].
    destruct (parse_span x self) as [s1|] eqn:E; [|discriminate]. simpl.
    apply IH. by apply (parse_span_leaves_no_span x l self). }
  unfold find_all.
  assert (List.filter (named "span") (descendants (root (soup self'))) = []) as ->;
    [|reflexivity].
  induction Hsp as [|d l Hd _ IH]; [reflexivity|]. simpl.
  destruct (named "span" d); [by destruct Hd | exact IH].
Qed.

End SpanRemoval.

(** ** A filled field stays *)

Section FilledFields.
Context `{Collaborators}.

Lemma find_token_keeps_filled tag token a attr v self :
  fields self !! attr = Some v → v ≠ "" →
  fields (find_token tag token a self) !! attr = Some v.
Proof.
  intros Hf Hv. unfold find_token.
  destruct (negb (field_filled a self)) eqn:E; [|exact Hf].
  destruct (startswith _ _); [|exact Hf]. simpl.
  destruct (decide (a = attr)) as [->|Hne]; [|by rewrite lookup_insert_ne].
  unfold field_filled in E. rewrite Hf in E.
  apply negb_true_iff, negb_false_iff, String.eqb_eq in E. done.
Qed.

Lemma parse_body_tag_keeps_filled tag attr v self self' :
  fields self !! attr = Some v → v ≠ "" →
  parse_body_tag tag self = Ok self' →
  fields self' !! attr = Some v.
Proof.
  intros Hf Hv. unfold parse_body_tag.
  destruct (parse_attrs tag _) as [s1|] eqn:E; [|discriminate].
  apply parse_attrs_sets in E as (a & ->). intros [= <-].
  set (s1 := with_soup _ _).
  assert (fields s1 !! attr = Some v) as Hs1.
  { unfold s1. simpl.
    destruct (remove_inline_comment_cases tag (remove_empty tag self)) as [->| ->];
      simpl; unfold remove_empty; by destruct (_ && _). }
  assert (∀ l s, fields s !! attr = Some v →
            fields (fold_left (fun self rule => find_token tag (fst rule) (snd rule) self)
                              l s) !! attr = Some v) as Hfold.
  { induction l as [|r l IH]; intros s Hs; [exact Hs|].
    simpl. apply IH. by apply find_token_keeps_filled. }
  specialize (Hfold (tokens s1) s1 Hs1).
  unfold remove_blacklisted_tags. by destruct (in_blacklist _ _).
Qed.

(** X15.  In the third loop of [parse], a token field that holds a
    non-empty value is final: whatever tags the loop still visits and
    whatever rules name the field, it has the same value when the loop
    ends. *)
Theorem body_pass_keeps_filled_fields
    (tags : list node_id) (self self' : CopyDoc) (attr v : string) :
  fields self !! attr = Some v → v ≠ "" →
  for_each parse_body_tag tags self = Ok self' →
  fields self' !! attr = Some v.
Proof.
  intros Hf Hv. revert self self' Hf. apply for_each_preserves.
  intros tag s s' Hs. by apply parse_body_tag_keeps_filled.
Qed.

End FilledFields.

(** ** Footnote anchors *)

Section Comments.
Context `{Collaborators}.

Local Abbreviation ids_of n := (map ident (self_and_descendants n)).
Local Abbreviation ids_below cs := (map ident (flat_map self_and_descendants cs)).

Lemma self_and_descendants_trans (d p n : node) :
  In p (self_and_descendants n) → In d (self_and_descendants p) →
  In d (self_and_descendants n).
Proof.
  induction n as [j s | j nm a cs IH] using node_ind.
  - by intros [<-|[]].
  - intros [<-|Hp] Hd; [exact Hd|]. right.
    apply in_flat_map in Hp as (c & Hc & Hp). apply in_flat_map. exists c.
    split; [exact Hc|]. rewrite List.Forall_forall in IH. by apply (IH c Hc).
Qed.

Lemma children_ids_disjoint (cs : list node) c0 c1 x :
  NoDup (ids_below cs) → In c0 cs → In c1 cs →
  In x (ids_of c0) → In x (ids_of c1) → c0 = c1.
Proof.
  induction cs as [|c cs IH]; [intros _ []|]. simpl. rewrite map_app.
  intros (_ & Hdisj & Hnd)%NoDup_app [->|H0] [->|H1] Hx0 Hx1.
  - reflexivity.
  - exfalso. apply (Hdisj x); rewrite list_elem_of_In; [exact Hx0|].
    apply in_map_iff in Hx1 as (d & <- & Hd). apply in_map.
    apply in_flat_map. eauto.
  - exfalso. apply (Hdisj x); rewrite list_elem_of_In; [exact Hx1|].
    apply in_map_iff in Hx0 as (d & <- & Hd). apply in_map.
    apply in_flat_map. eauto.
  - by apply IH.
Qed.

(** With distinct identities, dropping the children with the identity
    of [p] removes everything that [p] holds. *)
Lemma replace_child_drops_subtree (p n : node) :
  NoDup (ids_of n) → In p (descendants n) →
  ∀ d, In d (self_and_descendants (replace_child (ident p) (fun _ => []) n)) →
       ¬ In (ident d) (ids_of p).
Proof.
  induction n as [j s | j nm a cs IH] using node_ind; [intros _ []|].
  rewrite List.Forall_forall in IH.
  intros Hnd Hp d Hd Hin. simpl in Hnd. apply NoDup_cons in Hnd as [Hj Hnd].
  unfold descendants in Hp. simpl in Hp.
  apply in_flat_map in Hp as (c0 & Hc0 & Hp).
  assert (∀ x, In x (ids_of p) → In x (ids_of c0)) as Hsub.
  { intros x (e & <- & He)%in_map_iff. apply in_map.
    by apply (self_and_descendants_trans e p c0). }
  simpl in Hd. destruct Hd as [<-|Hd].
  - apply Hj. rewrite list_elem_of_In. simpl.
    apply Hsub in Hin. apply in_map_iff in Hin as (e & He & Hin).
    simpl in He. rewrite <- He. apply in_map. apply in_flat_map. eauto.
  - apply in_flat_map in Hd as (c' & Hc' & Hd).
    apply in_flat_map in Hc' as (c1 & Hc1 & Hc').
    destruct (has_id (ident p) c1) eqn:E; [destruct Hc'|].
    destruct Hc' as [<-|[]].
    assert (In (ident d) (ids_of c1)) as Hd1.
    { assert (Forall (fun e => In (ident e) (ids_of c1))
                (self_and_descendants (replace_child (ident p) (fun _ => []) c1))) as Hall.
      { apply replace_child_Forall; [done | by intros c _; constructor |].
        apply List.Forall_forall. intros e He. by apply in_map. }
      rewrite List.Forall_forall in Hall. by apply Hall. }
    assert (c0 = c1) as -> by (apply (children_ids_disjoint cs c0 c1 (ident d)); auto).
    apply (IH c1 Hc1) with (d := d); try done.
    + clear -Hnd Hc1. induction cs as [|c cs IHcs]; [destruct Hc1|].
      simpl in Hnd. rewrite map_app in Hnd.
      apply NoDup_app in Hnd as (Hc & _ & Hcs).
      destruct Hc1 as [->|Hc1]; [exact Hc | by apply IHcs].
    + rewrite self_and_descendants_eq in Hp. destruct Hp as [<-|Hp]; [|exact Hp].
      apply has_id_false in E. done.
Qed.

Lemma parent_in_Some (d n : node) :
  In d (descendants n) → parent_in (ident d) n ≠ None.
Proof.
  induction n as [j s | j nm a cs IH] using node_ind; [intros []|].
  rewrite List.Forall_forall in IH. unfold descendants. simpl.
  intros (c & Hc & Hd)%in_flat_map.
  destruct (existsb (has_id (ident d)) cs) eqn:E; [done|].
  rewrite self_and_descendants_eq in Hd. destruct Hd as [->|Hd].
  - assert (existsb (has_id (ident d)) cs = true); [|congruence].
    apply existsb_exists. exists d. split; [exact Hc | by apply has_id_true].
  - apply (first_some_is_Some _ _ c Hc). by apply IH.
Qed.

(** X16.  [remove_comments] on the anchor of a footnote (an [id] that
    starts with [cmnt]) takes the whole parent element out: when the
    nodes of the tree have distinct identities and the parent is an
    element of the document, neither the parent nor anything below it,
    the anchor and its sibling text included, is part of the document
    afterwards. *)
Theorem remove_comments_drops_the_parent
    (self : CopyDoc) (tag : node_id) (s : string) (p : node) :
  NoDup (map ident (self_and_descendants (root (soup self)))) →
  get (soup self) tag "id" = Some (AStr s) →
  startswith s "cmnt" = true →
  parent (soup self) tag = Some p →
  In p (descendants (root (soup self))) →
  ∃ self',
    remove_comments tag self = Ok self'
    ∧ ∀ d, In d (self_and_descendants p) → in_document (soup self') (ident d) = false.
Proof.
  intros Hnd Hid Hs Hp Hin. unfold remove_comments. rewrite Hid, Hs, Hp.
  eexists. split; [reflexivity|]. intros d Hd.
  apply in_document_false. simpl. unfold extract.
  assert (parent (soup self) (ident p) ≠ None) as Hpp.
  { unfold parent, forest. simpl.
    pose proof (parent_in_Some p (root (soup self)) Hin).
    by destruct (parent_in (ident p) (root (soup self))). }
  destruct (parent (soup self) (ident p)); [|done]. simpl.
  intros d' Hd' Heq.
  apply (replace_child_drops_subtree p (root (soup self)) Hnd Hin d').
  - rewrite self_and_descendants_eq. by right.
  - rewrite Heq. by apply in_map.
Qed.

End Comments.

(** ** When the span pass returns *)

Section SpanSuccess.
Context `{Collaborators}.

Local Abbreviation ids_of n := (map ident (self_and_descendants n)).
Local Abbreviation ids_below cs := (map ident (flat_map self_and_descendants cs)).

Lemma for_each_succeeds {S X} (I : S → Prop) (step : X → S → result S) l :
  (∀ x s, In x l → I s → ∃ s', step x s = Ok s' ∧ I s') →
  ∀ s, I s → ∃ s', for_each step l s = Ok s' ∧ I s'.
Proof.
  induction l as [|x l IH]; intros Hstep s Hs; simpl; [eauto|].
  destruct (Hstep x s) as (s1 & -> & Hs1); [by left | exact Hs|]. simpl.
  apply IH; [|exact Hs1]. intros y t Hy. apply Hstep. by right.
Qed.

Lemma find_node_In i n m : find_node i n = Some m → In m (self_and_descendants n).
Proof.
  revert m. induction n as [j s | j nm a cs IH] using node_ind; intros m;
    rewrite find_node_eq; destruct (has_id i _); try discriminate;
    try (intros [= <-]; by left).
  simpl. intros Hm. right. induction IH as [|c cs' Hc _ IHcs]; [discriminate|].
  simpl in *. apply in_or_app. destruct (find_node i c) eqn:E.
  - left. apply Hc. congruence.
  - right. by apply IHcs.
Qed.

(** With distinct identities, an identity finds its node. *)
Lemma find_node_unique (d n : node) :
  NoDup (ids_of n) → In d (self_and_descendants n) → find_node (ident d) n = Some d.
Proof.
  induction n as [j s | j nm a cs IH] using node_ind.
  - intros _ [<-|[]]. rewrite find_node_eq.
    by assert (has_id (ident (NavigableString j s)) (NavigableString j s) = true)
      as -> by (by apply has_id_true).
  - intros Hnd [<-|Hd]; rewrite find_node_eq.
    + by assert (has_id (ident (Tag j nm a cs)) (Tag j nm a cs) = true)
        as -> by (by apply has_id_true).
    + simpl in Hnd. apply NoDup_cons in Hnd as [Hj Hnd].
      assert (has_id (ident d) (Tag j nm a cs) = false) as ->.
      { apply has_id_false. simpl. intros ->. apply Hj.
        rewrite list_elem_of_In. by apply in_map. }
      simpl. clear Hj. induction IH as [|c cs' Hc _ IHcs]; [destruct Hd|].
      simpl in *. rewrite map_app in Hnd.
      apply NoDup_app in Hnd as (Hndc & Hdisj & Hndcs).
      apply in_app_or in Hd as [Hd|Hd].
      * by rewrite (Hc Hndc Hd).
      * destruct (find_node (ident d) c) as [m|] eqn:E; [|by apply IHcs].
        exfalso. apply (Hdisj (ident d)); rewrite list_elem_of_In.
        -- rewrite <- (find_node_ident _ _ _ E). apply in_map.
           by apply (find_node_In (ident d)).
        -- by apply in_map.
Qed.

Lemma get_unique (bs : BeautifulSoup) (d : node) key :
  NoDup (ids_of (root bs)) → In d (descendants (root bs)) →
  get bs (ident d) key = dict_get key (node_attrs d).
Proof.
  intros Hnd Hd. unfold get, attrs, lookup, forest. simpl.
  rewrite (find_node_unique d (root bs) Hnd); [reflexivity|].
  rewrite self_and_descendants_eq. by right.
Qed.

Lemma parent_of_descendant (bs : BeautifulSoup) (d : node) :
  In d (descendants (root bs)) → parent bs (ident d) ≠ None.
Proof.
  intros Hd. unfold parent, forest. simpl.
  pose proof (parent_in_Some d (root bs) Hd).
  by destruct (parent_in (ident d) (root bs)).
Qed.

(** What [wrap] and [unwrap] keep: the other nodes, with their
    attributes. *)
Lemma wrap_keeps_nodes i k nm (n d : node) :
  In d (self_and_descendants n) →
  ∃ d', In d' (self_and_descendants (replace_child i (fun c => [Tag k nm [] [c]]) n))
        ∧ ident d' = ident d ∧ node_attrs d' = node_attrs d.
Proof.
  induction n as [j s | j nm' a cs IH] using node_ind.
  - intros [<-|[]]. eexists. split; [by left | done].
  - rewrite List.Forall_forall in IH. intros [<-|Hd].
    + eexists. split; [by left | done].
    + apply in_flat_map in Hd as (c & Hc & Hd).
      destruct (has_id i c) eqn:E.
      * exists d. split; [|done]. simpl. right.
        apply in_flat_map. exists (Tag k nm [] [c]). split.
        -- apply in_flat_map. exists c. split; [exact Hc|]. rewrite E. by left.
        -- simpl. right. rewrite app_nil_r. exact Hd.
      * destruct (IH c Hc Hd) as (d' & Hd' & Hsame). exists d'. split; [|exact Hsame].
        simpl. right. apply in_flat_map. eexists. split; [|exact Hd'].
        apply in_flat_map. exists c. split; [exact Hc|]. rewrite E. by left.
Qed.

Lemma unwrap_keeps_nodes i (n d : node) :
  In d (self_and_descendants n) → ident d ≠ i →
  ∃ d', In d' (self_and_descendants (replace_child i node_contents n))
        ∧ ident d' = ident d ∧ node_attrs d' = node_attrs d.
Proof.
  induction n as [j s | j nm' a cs IH] using node_ind.
  - intros [<-|[]] _. eexists. split; [by left | done].
  - rewrite List.Forall_forall in IH. intros [<-|Hd] Hi.
    + eexists. split; [by left | done].
    + apply in_flat_map in Hd as (c & Hc & Hd).
      destruct (has_id i c) eqn:E.
      * exists d. split; [|done]. simpl. right.
        rewrite self_and_descendants_eq in Hd. destruct Hd as [<-|Hd].
        { apply has_id_true in E. done. }
        unfold descendants in Hd. apply in_flat_map in Hd as (c' & Hc' & Hd).
        apply in_flat_map. exists c'. split; [|exact Hd].
        apply in_flat_map. exists c. split; [exact Hc|]. by rewrite E.
      * destruct (IH c Hc Hd Hi) as (d' & Hd' & Hsame). exists d'. split; [|exact Hsame].
        simpl. right. apply in_flat_map. eexists. split; [|exact Hd'].
        apply in_flat_map. exists c. split; [exact Hc|]. rewrite E. by left.
Qed.

(** The tree has distinct identities, all below the identity of the
    next object. *)
Local Abbreviation well_formed bs :=
  (NoDup (ids_of (root bs))
   ∧ Forall (fun d => ident d < next_id bs) (self_and_descendants (root bs))).

Lemma below_root (d n : node) :
  NoDup (ids_of n) → In d (descendants n) → ident d ≠ ident n.
Proof.
  rewrite self_and_descendants_eq. simpl. intros [Hn _]%NoDup_cons Hd Heq.
  apply Hn. rewrite list_elem_of_In, <- Heq. by apply in_map.
Qed.

Lemma wrap_root_well_formed i nm bs bs' :
  well_formed bs → wrap i nm bs = Ok bs' → well_formed bs'.
Proof.
  intros [Hnd Hlt] E.
  rewrite self_and_descendants_eq in Hnd, Hlt. simpl in Hnd.
  apply NoDup_cons in Hnd as [Hr Hnd]. apply Forall_cons in Hlt as [Hrlt Hlt].
  destruct (wrap_well_formed i nm bs bs' (conj Hnd Hlt) E) as [Hnd' Hlt'].
  unfold wrap in E. destruct (parent bs i); [|discriminate].
  injection E as <-. simpl in *.
  rewrite self_and_descendants_eq. simpl. rewrite ident_replace_child. split.
  - apply NoDup_cons. split; [|exact Hnd'].
    rewrite wrap_ids by done.
    intros [Hk|Hin]%elem_of_with_wrapper; [unfold node_id in *; lia | done].
  - apply Forall_cons. split; [|exact Hlt'].
    rewrite ident_replace_child. unfold node_id in *. lia.
Qed.

Lemma unwrap_root_well_formed i bs bs' :
  well_formed bs → unwrap i bs = Ok bs' → well_formed bs'.
Proof.
  intros [Hnd Hlt] E.
  rewrite self_and_descendants_eq in Hnd, Hlt. simpl in Hnd.
  apply NoDup_cons in Hnd as [Hr Hnd]. apply Forall_cons in Hlt as [Hrlt Hlt].
  destruct (unwrap_well_formed i bs bs' (conj Hnd Hlt) E) as [[Hnd' Hlt'] _].
  unfold unwrap in E. destruct (parent bs i); [|discriminate].
  injection E as <-. simpl in *.
  rewrite self_and_descendants_eq. simpl. rewrite ident_replace_child. split.
  - apply NoDup_cons. split; [|exact Hnd'].
    rewrite unwrap_ids by done. by intros [_ Hin]%list_elem_of_filter.
  - apply Forall_cons. split; [|exact Hlt'].
    by rewrite ident_replace_child.
Qed.

(** The classes read from the attributes [a] are a list, each with an
    entry in the style sheet. *)
Local Abbreviation styled_by sheet a :=
  (∃ classes, classes_of (dict_get "class" a) = Ok classes
              ∧ ∀ cls, In cls classes →
                       (sheet : gmap string (dict string)) !! ("." +:+ cls) ≠ None).

(** The spans [rem] are in the document, with classes that the style
    sheet knows. *)
Local Abbreviation ready sheet rem self :=
  (well_formed (soup self)
   ∧ stylesheet self = sheet
   ∧ ∀ y, In y rem →
          ∃ d, In d (descendants (root (soup self))) ∧ ident d = y
               ∧ styled_by sheet (node_attrs d)).

Lemma wrap_ready sheet rem tag nm self :
  In tag rem → ready sheet rem self →
  ∃ bs, wrap tag nm (soup self) = Ok bs ∧ ready sheet rem (with_soup bs self).
Proof.
  intros Htag (Hwf & Hsheet & Hrem).
  destruct (Hrem tag Htag) as (dt & Hdt & Hidt & _).
  pose proof (parent_of_descendant (soup self) dt Hdt) as Hp. rewrite Hidt in Hp.
  destruct (wrap tag nm (soup self)) as [bs|] eqn:E;
    [|unfold wrap in E; by destruct (parent (soup self) tag)].
  exists bs. split; [reflexivity|].
  pose proof (wrap_root_well_formed _ _ _ _ Hwf E) as Hwf'.
  split; [exact Hwf'|]. split; [exact Hsheet|]. simpl.
  intros y Hy. destruct (Hrem y Hy) as (d & Hd & Hid & Hgood).
  unfold wrap in E. destruct (parent (soup self) tag); [|discriminate].
  injection E as <-. simpl in *.
  destruct (wrap_keeps_nodes tag (next_id (soup self)) nm (root (soup self)) d)
    as (d' & Hd' & Hid' & Ha'); [rewrite self_and_descendants_eq; by right|].
  exists d'. rewrite Ha'. split; [|split; [congruence | exact Hgood]].
  rewrite self_and_descendants_eq in Hd'. destruct Hd' as [<-|Hd']; [|exact Hd'].
  exfalso. rewrite ident_replace_child in Hid'.
  by apply (below_root d (root (soup self)) (proj1 Hwf) Hd).
Qed.

Lemma unwrap_ready sheet rem tag self :
  ¬ In tag rem → ready sheet (tag :: rem) self →
  ∃ bs, unwrap tag (soup self) = Ok bs ∧ ready sheet rem (with_soup bs self).
Proof.
  intros Htag (Hwf & Hsheet & Hrem).
  destruct (Hrem tag (or_introl eq_refl)) as (dt & Hdt & Hidt & _).
  pose proof (parent_of_descendant (soup self) dt Hdt) as Hp. rewrite Hidt in Hp.
  destruct (unwrap tag (soup self)) as [bs|] eqn:E;
    [|unfold unwrap in E; by destruct (parent (soup self) tag)].
  exists bs. split; [reflexivity|].
  pose proof (unwrap_root_well_formed _ _ _ Hwf E) as Hwf'.
  split; [exact Hwf'|]. split; [exact Hsheet|]. simpl.
  intros y Hy. destruct (Hrem y (or_intror Hy)) as (d & Hd & Hid & Hgood).
  unfold unwrap in E. destruct (parent (soup self) tag); [|discriminate].
  injection E as <-. simpl in *.
  destruct (unwrap_keeps_nodes tag (root (soup self)) d)
    as (d' & Hd' & Hid' & Ha');
    [rewrite self_and_descendants_eq; by right | congruence |].
  exists d'. rewrite Ha'. split; [|split; [congruence | exact Hgood]].
  rewrite self_and_descendants_eq in Hd'. destruct Hd' as [<-|Hd']; [|exact Hd'].
  exfalso. rewrite ident_replace_child in Hid'.
  by apply (below_root d (root (soup self)) (proj1 Hwf) Hd).
Qed.

Lemma wrap_if_styled_ready sheet rem key values new_tag tag self :
  In tag rem → ready sheet rem self →
  ∃ self', wrap_if_styled key values new_tag tag self = Ok self'
           ∧ ready sheet rem self'.
Proof.
  intros Htag Hs. unfold wrap_if_styled.
  pose proof Hs as (Hwf & Hsheet & Hrem).
  destruct (Hrem tag Htag) as (d & Hd & Hid & classes & Hc & Hknown).
  rewrite <- Hid, (get_unique (soup self) d "class" (proj1 Hwf) Hd), Hc, Hid.
  cbn [Py.bind].
  apply (for_each_succeeds (fun s => ready sheet rem s)); [|exact Hs].
  intros cls s Hcls Hs'.
  pose proof Hs' as (Hwf' & Hsheet' & Hrem'). rewrite Hsheet'.
  destruct (sheet !! ("." +:+ cls)) as [styles|] eqn:E; [|by destruct (Hknown cls Hcls)].
  apply (for_each_succeeds (fun s => ready sheet rem s)); [|exact Hs'].
  intros item t _ Ht. destruct (_ && _); [|eauto].
  destruct (wrap_ready sheet rem tag new_tag t Htag Ht) as (bs & -> & Hbs).
  cbn [Py.bind]. eauto.
Qed.

Lemma parse_span_ready sheet rem tag self :
  ¬ In tag rem → ready sheet (tag :: rem) self →
  ∃ self', parse_span tag self = Ok self' ∧ ready sheet rem self'.
Proof.
  intros Htag Hs. unfold parse_span.
  destruct (wrap_if_styled_ready sheet (tag :: rem) "font-style" ["italic"] "em"
              tag self (or_introl eq_refl) Hs) as (s1 & E1 & Hs1).
  unfold create_italic. rewrite E1. cbn [Py.bind].
  destruct (wrap_if_styled_ready sheet (tag :: rem) "font-weight" ["bold"; "700"]
              "strong" tag s1 (or_introl eq_refl) Hs1) as (s2 & E2 & Hs2).
  unfold create_strong. rewrite E2. cbn [Py.bind].
  destruct (wrap_if_styled_ready sheet (tag :: rem) "text-decoration" ["underline"]
              "u" tag s2 (or_introl eq_refl) Hs2) as (s3 & E3 & Hs3).
  unfold create_underline. rewrite E3. cbn [Py.bind].
  destruct (unwrap_ready sheet rem tag s3 Htag Hs3) as (bs & E & Hbs).
  unfold unwrap_span. rewrite E. cbn [Py.bind]. eauto.
Qed.

Lemma NoDup_find_all nm (n : node) :
  NoDup (map ident (descendants n)) → NoDup (find_all nm n).
Proof.
  unfold find_all. generalize (descendants n). intros l.
  induction l as [|d l IH]; [constructor|]. simpl.
  intros [Hd Hl]%NoDup_cons. destruct (named nm d); [|by apply IH].
  simpl. apply NoDup_cons. split; [|by apply IH].
  rewrite list_elem_of_In in *. intros (e & He & Hin)%in_map_iff.
  apply Hd. rewrite <- He. apply in_map. by apply filter_In in Hin as [Hin _].
Qed.

(** X17.  The first loop of [parse] returns for every document in which
    each class of each [span] has an entry in the style sheet: when the
    nodes of the tree have distinct identities, all below that of the
    next object, and the [class] attribute of every [span] of the
    document is absent or a list whose classes are all selectors of the
    style sheet, no [KeyError], [TypeError] or [ValueError] ends the
    loop. *)
Theorem span_pass_returns (self : CopyDoc) :
  NoDup (map ident (self_and_descendants (root (soup self)))) →
  Forall (fun d => ident d < next_id (soup self))
         (self_and_descendants (root (soup self))) →
  (∀ d, In d (descendants (root (soup self))) → named "span" d = true →
        ∃ classes, classes_of (dict_get "class" (node_attrs d)) = Ok classes
                   ∧ ∀ cls, In cls classes →
                            stylesheet self !! ("." +:+ cls) ≠ None) →
  ∃ self', for_each parse_span (find_all "span" (root (soup self))) self = Ok self'.
Proof.
  intros Hnd Hlt Hspans.
  assert (NoDup (find_all "span" (root (soup self)))) as Hl.
  { apply NoDup_find_all. rewrite self_and_descendants_eq in Hnd.
    by apply NoDup_cons in Hnd as [_ Hnd]. }
  assert (ready (stylesheet self) (find_all "span" (root (soup self))) self) as Hs.
  { split; [by split|]. split; [reflexivity|]. intros y Hy.
    unfold find_all in Hy. apply in_map_iff in Hy as (d & Hid & Hin).
    apply filter_In in Hin as [Hin Hspan]. exists d.
    split; [exact Hin|]. split; [exact Hid|]. by apply Hspans. }
  revert Hl Hs. generalize (find_all "span" (root (soup self))).
  generalize (stylesheet self) at 2 3. intros sheet l. clear Hnd Hlt Hspans.
  revert self. induction l as [|x l IH]; intros self Hl Hs; simpl; [eauto|].
  apply NoDup_cons in Hl as [Hx Hl]. rewrite list_elem_of_In in Hx.
  destruct (parse_span_ready sheet l x self Hx Hs) as (s1 & -> & Hs1).
  simpl. by apply IH.
Qed.

End SpanSuccess.

(** ** Instances of the further properties *)

Section FurtherWorked.
Import Reference Examples.


Lemma build_stylesheet_absent_selector_witness :
  build_stylesheet (new_soup styled_span) !! ".c9" = None.
Proof.
  apply (build_stylesheet_absent_selector (new_soup styled_span) ".c9").
  intros items Hin. vm_compute in Hin. destruct Hin as [E|[]]. discriminate E.
Defined.

Lemma parse_span_without_whitelisted_style_witness :
  parse_span 7 (styled styled_span {[ ".c1" := [("color", "red")] ]})
  = unwrap_span 7 (styled styled_span {[ ".c1" := [("color", "red")] ]}).
Proof.
  destruct (parse_span_without_whitelisted_style
              (styled styled_span {[ ".c1" := [("color", "red")] ]}) 7 ["c1"])
    as (_ & _ & _ & E).
  - reflexivity.
  - intros cls [<-|[]]. exists [("color", "red")]. split; [reflexivity|].
    intros key value [[= <- <-]|[]]. repeat split; intros [E _]; discriminate E.
  - exact E.
Defined.

Lemma parse_span_underline_witness :
  ∃ self',
    parse_span 7 (styled styled_span {[ ".c1" := [("text-decoration", "underline")] ]})
    = Ok self'
    ∧ root (soup self')
      = Tag 0 "[document]" []
          [Tag 1 "html" []
             [Tag 2 "head" [] [Tag 3 "style" [] [NavigableString 4 ".c1{font-weight:700}"]];
              Tag 5 "body" []
                [Tag 6 "p" []
                   [Tag 10 "u" [] [NavigableString 8 "bold"];
                    NavigableString 9 " text"]]]].
Proof.
  destruct (parse_span_underline
              (styled styled_span {[ ".c1" := [("text-decoration", "underline")] ]})
              7 "c1" [("text-decoration", "underline")])
    as (self' & E & Hr & _).
  - vm_compute. discriminate.
  - vm_compute. discriminate.
  - reflexivity.
  - reflexivity.
  - apply NoDup_singleton.
  - by left.
  - intros key value [[= <- <-]|[]]. split; intros [E _]; discriminate E.
  - exists self'. split; [exact E|]. rewrite Hr. reflexivity.
Defined.

Lemma span_pass_keeps_the_strings_witness :
  ∃ self',
    for_each parse_span (find_all "span" (root (soup (unparsed styled_span []))))
             (unparsed styled_span []) = Ok self'
    ∧ strings_of (root (soup self')) = [".c1{font-weight:700}"; "bold"; " text"].
Proof.
  eexists. split; [vm_compute; reflexivity|].
  match goal with
  | |- strings_of (root (soup ?s)) = _ =>
      destruct (span_pass_keeps_the_strings (unparsed styled_span []) s) as [E _]
  end.
  - apply (bool_decide_unpack _). vm_compute. reflexivity.
  - vm_compute. reflexivity.
  - rewrite E. reflexivity.
Defined.

Lemma parse_attrs_changes_attributes_only_witness :
  ∃ self',
    parse_attrs 3 (unparsed img_and_div []) = Ok self'
    ∧ strings_of (root (soup self')) = ["t"]
    ∧ attrs (soup self') 4 = [("id", AStr "d"); ("class", AList ["k"])].
Proof.
  eexists. split; [vm_compute; reflexivity|].
  match goal with
  | |- strings_of (root (soup ?s)) = _ ∧ _ =>
      destruct (parse_attrs_changes_attributes_only 3 (unparsed img_and_div []) s)
        as (_ & Hs & Ha & _)
  end.
  - vm_compute. reflexivity.
  - rewrite Hs, (Ha 4) by discriminate. split; reflexivity.
Defined.

Lemma body_pass_adds_nothing_witness :
  ∃ self',
    parse_body (unparsed titled [("Title:", "title")]) = Ok self'
    ∧ ∀ d, In d (descendants (root (soup self'))) →
           ∃ d0, In d0 (descendants (root (soup (unparsed titled [("Title:", "title")]))))
                 ∧ ident d0 = ident d ∧ node_name d0 = node_name d
                 ∧ (is_tag d = false → d0 = d).
Proof.
  eexists. split; [vm_compute; reflexivity|].
  apply (body_pass_adds_nothing (unparsed titled [("Title:", "title")])).
  vm_compute. reflexivity.
Defined.

Lemma body_pass_removes_blacklisted_witness :
  ∃ self',
    parse_body (blacklist 5 (unparsed two_links [])) = Ok self'
    ∧ in_document (soup self') 5 = false.
Proof.
  eexists. split; [vm_compute; reflexivity|].
  eapply (body_pass_removes_blacklisted (blacklist 5 (unparsed two_links []))).
  - reflexivity.
  - vm_compute. reflexivity.
  - vm_compute. tauto.
  - vm_compute. tauto.
Defined.



Lemma str_returns_iff_body_holds_tags_witness :
  ((∃ out, __str__ (unparsed text_in_body []) = Ok out)
   ↔ forallb is_tag [NavigableString 3 a_nl_nl_b] = true)
  ∧ ∀ e, __str__ (unparsed text_in_body []) = Raise e → e = AttributeError.
Proof.
  apply (str_returns_iff_body_holds_tags (unparsed text_in_body [])
           (Tag 2 "body" [] [NavigableString 3 a_nl_nl_b])).
  reflexivity.
Defined.

Lemma str_leaves_spaces_only_witness :
  ∃ out,
    __str__ (unparsed text_in_p []) = Ok out
    ∧ ∀ c, In c (list_ascii_of_string out) → isspace c = true → c = " "%char.
Proof.
  eexists. split; [vm_compute; reflexivity|].
  apply (str_leaves_spaces_only (unparsed text_in_p [])).
  vm_compute. reflexivity.
Defined.

Lemma remove_empty_decided_by_children_witness :
  remove_empty 3 (unparsed empty_p_and_br [])
  = with_soup (extract 3 (soup (unparsed empty_p_and_br []))) (unparsed empty_p_and_br [])
  ∧ remove_empty 3 (unparsed text_in_p []) = unparsed text_in_p [].
Proof.
  split.
  - apply (remove_empty_decided_by_children (unparsed empty_p_and_br []) 3
             (Tag 3 "p" [] []) "p"); reflexivity.
  - apply (remove_empty_decided_by_children (unparsed text_in_p []) 3
             (Tag 3 "p" [] [NavigableString 4 a_nl_nl_b]) "p");
      [reflexivity | reflexivity | discriminate].
Defined.

Lemma span_pass_leaves_no_span_witness :
  ∃ self',
    for_each parse_span (find_all "span" (root (soup (unparsed styled_span []))))
             (unparsed styled_span []) = Ok self'
    ∧ find_all "span" (root (soup self')) = [].
Proof.
  eexists. split; [vm_compute; reflexivity|].
  apply (span_pass_leaves_no_span (unparsed styled_span [])).
  - apply (bool_decide_unpack _). vm_compute. reflexivity.
  - apply (bool_decide_unpack _). vm_compute. reflexivity.
  - vm_compute. reflexivity.
Defined.

Lemma body_pass_keeps_filled_fields_witness :
  ∃ self',
    for_each parse_body_tag [3; 5; 7]
             (set_field "title" "Draft" (unparsed titled [("Title:", "title")]))
    = Ok self'
    ∧ fields self' !! "title" = Some "Draft".
Proof.
  eexists. split; [vm_compute; reflexivity|].
  apply (body_pass_keeps_filled_fields [3; 5; 7]
           (set_field "title" "Draft" (unparsed titled [("Title:", "title")]))).
  - reflexivity.
  - discriminate.
  - vm_compute. reflexivity.
Defined.

Lemma remove_comments_drops_the_parent_witness :
  ∃ self',
    remove_comments 6 (unparsed commented []) = Ok self'
    ∧ in_document (soup self') 5 = false
    ∧ in_document (soup self') 6 = false
    ∧ in_document (soup self') 8 = false.
Proof.
  destruct (remove_comments_drops_the_parent (unparsed commented []) 6 "cmnt1"
              (Tag 5 "div" []
                 [Tag 6 "a" [("id", AStr "cmnt1"); ("href", AStr "#cmnt_ref1")]
                    [NavigableString 7 "[a]"];
                  NavigableString 8 "note"]))
    as (self' & E & Hout).
  - apply (bool_decide_unpack _). vm_compute. reflexivity.
  - reflexivity.
  - reflexivity.
  - reflexivity.
  - simpl. tauto.
  - exists self'. split; [exact E|]. repeat split.
    + apply (Hout (Tag 5 "div" []
                     [Tag 6 "a" [("id", AStr "cmnt1"); ("href", AStr "#cmnt_ref1")]
                        [NavigableString 7 "[a]"];
                      NavigableString 8 "note"])).
      simpl. tauto.
    + apply (Hout (Tag 6 "a" [("id", AStr "cmnt1"); ("href", AStr "#cmnt_ref1")]
                     [NavigableString 7 "[a]"])).
      simpl. tauto.
    + apply (Hout (NavigableString 8 "note")). simpl. tauto.
Defined.

Lemma span_pass_returns_witness :
  ∃ self',
    for_each parse_span (find_all "span" (root (soup (unparsed styled_span []))))
             (unparsed styled_span []) = Ok self'.
Proof.
  apply (span_pass_returns (unparsed styled_span [])).
  - apply (bool_decide_unpack _). vm_compute. reflexivity.
  - apply (bool_decide_unpack _). vm_compute. reflexivity.
  - intros d Hd Hn. simpl in Hd.
    repeat (destruct Hd as [<-|Hd]; [try discriminate Hn|]); [|destruct Hd].
    exists ["c1"]. split; [reflexivity|].
    intros cls [<-|[]]. vm_compute. discriminate.
Defined.

End FurtherWorked.
